(** * Agentic AI playground: a shallow embedding of the orchestration code

    The development follows the three Python programs of the
    [AgentsSDKPlayGround] directory:

    - [trading_agent.py]: [TradingAgent.parse_symbol_from_query], the
      extraction of a trading symbol and an exchange from free text with
      three regular expressions and a table of known symbols;
    - [automotive_multi-agent.py]: the data model of workflow plans, the
      mock tools of the repair-order, parts and payment domains, and the
      plan builder [analyze_multi_domain_request];
    - [AgentsSDKPlaybook.py]: the conversation loop of [main], which runs
      the triage agent and the translation specialists until the triage
      agent decides [complete] or a safety limit is reached.

    Text is modelled by [string], that is, by sequences of 8-bit
    characters; the model of [str.upper], [str.lower] and of the regular
    expression classes is the one Python has on ASCII text.  Python floats
    are IEEE 754 binary64 numbers, modelled by [spec_float] with precision
    53 and maximal exponent 1024.  The language model and the Agents SDK
    are external: a run of an agent is an oracle of the conversation
    loop. *)

From Stdlib Require Import Bool Arith ZArith List Permutation Lia.
From Stdlib Require Import Ascii String DecimalString.
From Stdlib Require Import Floats.SpecFloat.
Import ListNotations.

Local Open Scope list_scope.
Local Open Scope string_scope.
Local Open Scope nat_scope.

(** ** Python values and outcomes *)

(** What a Python call does: it returns a value or raises an exception. *)
Inductive PyExc : Type :=
| OverflowError (msg : string)
| ValueError (msg : string).

Inductive PyResult (A : Type) : Type :=
| Returned (v : A)
| Raised (e : PyExc).

Arguments Returned {A} v.
Arguments Raised {A} e.

Definition bind {A B : Type} (m : PyResult A) (f : A -> PyResult B) : PyResult B :=
  match m with
  | Returned v => f v
  | Raised e => Raised e
  end.

Notation "x <- m ;; k" := (bind m (fun x => k))
  (at level 61, m at next level, right associativity).

(** The values of type [Any] that the programs put into dictionaries.
    A dictionary keeps the order in which its keys were inserted. *)
#[warnings="-register-all"]
Inductive PyVal : Type :=
| PBool (b : bool)
| PInt (z : Z)
| PFloat (f : spec_float)
| PStr (s : string)
| PList (l : list PyVal)
| PDict (d : list (string * PyVal)).

Definition Dict : Type := list (string * PyVal).

(** [d.get(key)] *)
Fixpoint dict_get (d : Dict) (key : string) : option PyVal :=
  match d with
  | [] => None
  | (k, v) :: d' => if String.eqb k key then Some v else dict_get d' key
  end.

(** [key in d] *)
Definition has_key (d : Dict) (key : string) : bool :=
  match dict_get d key with
  | Some _ => true
  | None => false
  end.

(** ** Strings *)

Module Str.

Definition code (c : ascii) : nat := nat_of_ascii c.

Definition between (lo hi n : nat) : bool := (lo <=? n) && (n <=? hi).

(** [c.upper()] and [c.lower()] of one ASCII character. *)
Definition upper_char (c : ascii) : ascii :=
  if between 97 122 (code c) then ascii_of_nat (code c - 32) else c.

Definition lower_char (c : ascii) : ascii :=
  if between 65 90 (code c) then ascii_of_nat (code c + 32) else c.

Fixpoint map (f : ascii -> ascii) (s : string) : string :=
  match s with
  | EmptyString => EmptyString
  | String c s' => String (f c) (map f s')
  end.

(** [s.upper()], [s.lower()] *)
Definition upper (s : string) : string := map upper_char s.
Definition lower (s : string) : string := map lower_char s.

(** [s.startswith(p)], returning what follows the prefix. *)
Fixpoint strip_prefix (p s : string) : option string :=
  match p, s with
  | EmptyString, _ => Some s
  | String a p', String b s' =>
      if Ascii.eqb a b then strip_prefix p' s' else None
  | String _ _, EmptyString => None
  end.

Definition startswith (s p : string) : bool :=
  match strip_prefix p s with
  | Some _ => true
  | None => false
  end.

(** [sub in s] *)
Fixpoint contains (sub s : string) : bool :=
  startswith s sub ||
  match s with
  | EmptyString => false
  | String _ s' => contains sub s'
  end.

(** [str(n)] for an integer. *)
Definition of_Z (n : Z) : string := NilZero.string_of_int (Z.to_int n).

End Str.

(** ** Regular expressions

    The fragment of Python's [re] that the programs use: literals, a
    greedy [+] over one character class, alternation, concatenation,
    capturing groups and the two anchors.  [exec] is the backtracking
    matcher of [re]: alternatives are tried from left to right, [+] first
    takes as many characters as it can and gives them back one by one, and
    the continuation [k] stands for the rest of the pattern. *)

Module Re.

Inductive regex : Type :=
| Lit (s : string)
| Plus (cls : ascii -> bool)
| Alt (r1 r2 : regex)
| Seq (r1 r2 : regex)
| Grp (n : nat) (r : regex)
| Bol
| Eol.

(** The groups of a match, the most recently closed first. *)
Definition groups : Type := list (nat * string).

(** [m.group(n)]: [None] when the group took no part in the match. *)
Fixpoint group (m : groups) (n : nat) : option string :=
  match m with
  | [] => None
  | (i, s) :: m' => if Nat.eqb i n then Some s else group m' n
  end.

Section Exec.

Context {R : Type}.

Fixpoint plus_k (cls : ascii -> bool) (pos : nat) (s : string)
    (k : nat -> string -> option R) : option R :=
  match s with
  | EmptyString => None
  | String c s' =>
      if cls c then
        match plus_k cls (S pos) s' k with
        | Some r => Some r
        | None => k (S pos) s'
        end
      else None
  end.

Fixpoint exec (r : regex) (pos : nat) (s : string) (g : groups)
    (k : nat -> string -> groups -> option R) : option R :=
  match r with
  | Lit p =>
      match Str.strip_prefix p s with
      | Some s' => k (pos + String.length p) s' g
      | None => None
      end
  | Plus cls => plus_k cls pos s (fun pos' s' => k pos' s' g)
  | Alt r1 r2 =>
      match exec r1 pos s g k with
      | Some x => Some x
      | None => exec r2 pos s g k
      end
  | Seq r1 r2 => exec r1 pos s g (fun pos' s' g' => exec r2 pos' s' g' k)
  | Grp n r1 =>
      exec r1 pos s g
        (fun pos' s' g' => k pos' s' ((n, substring 0 (pos' - pos) s) :: g'))
  | Bol => if Nat.eqb pos 0 then k pos s g else None
  | Eol =>
      match s with
      | EmptyString => k pos s g
      | String c EmptyString => if Ascii.eqb c "010" then k pos s g else None
      | String _ (String _ _) => None
      end
  end.

End Exec.

(** [re.match(r, s)]: a match at the start of the string. *)
Definition re_match (r : regex) (s : string) : option groups :=
  exec r 0 s [] (fun _ _ g => Some g).

(** [re.search(r, s)]: the first position at which [r] matches. *)
Fixpoint search_from (r : regex) (pos : nat) (s : string) : option groups :=
  match exec r pos s [] (fun _ _ g => Some g) with
  | Some g => Some g
  | None =>
      match s with
      | EmptyString => None
      | String _ s' => search_from r (S pos) s'
      end
  end.

Definition search (r : regex) (s : string) : option groups := search_from r 0 s.

(** The character classes of the patterns.  [\s] is what Python takes
    for white space among the ASCII characters: tab to carriage return,
    the four separators 28 to 31, and the space. *)
Definition space (c : ascii) : bool :=
  Str.between 9 13 (Str.code c) || Str.between 28 32 (Str.code c).

(** [[A-Z0-9&\-]] *)
Definition symbol_char (c : ascii) : bool :=
  Str.between 65 90 (Str.code c) || Str.between 48 57 (Str.code c)
  || Ascii.eqb c "&" || Ascii.eqb c "-".

(** [[^\s@]] *)
Definition email_char (c : ascii) : bool :=
  negb (space c || Ascii.eqb c "@").

(** The groups that every match of a pattern defines. *)
Fixpoint defined (r : regex) : list nat :=
  match r with
  | Lit _ | Plus _ | Bol | Eol => []
  | Alt r1 r2 => filter (fun n => existsb (Nat.eqb n) (defined r2)) (defined r1)
  | Seq r1 r2 => (defined r1 ++ defined r2)%list
  | Grp n r1 => n :: defined r1
  end.

(** A group that is set stays set, and the groups of [defined r] are set
    when the continuation of [r] is reached. *)
Definition extends (r : regex) (g g' : groups) : Prop :=
  forall n, In n (defined r) \/ group g n <> None -> group g' n <> None.

End Re.

(** ** trading_agent.py *)

Module TradingAgent.

Import Re.

(** [(NSE|BSE|NFO|MCX)] *)
Definition exchange : regex :=
  Alt (Lit "NSE") (Alt (Lit "BSE") (Alt (Lit "NFO") (Lit "MCX"))).

(** [(NSE|BSE|NFO|MCX):([A-Z0-9&\-]+)] *)
Definition pattern1 : regex :=
  Seq (Grp 1 exchange) (Seq (Lit ":") (Grp 2 (Plus symbol_char))).

(** [([A-Z0-9&\-]+)\s+(?:ON|AT|TRADED\s+AT)\s+(NSE|BSE|NFO|MCX)] *)
Definition pattern2 : regex :=
  Seq (Grp 1 (Plus symbol_char))
    (Seq (Plus space)
      (Seq (Alt (Lit "ON")
             (Alt (Lit "AT") (Seq (Lit "TRADED") (Seq (Plus space) (Lit "AT")))))
        (Seq (Plus space) (Grp 2 exchange)))).

(** [(NSE|BSE|NFO|MCX)\s+([A-Z0-9&\-]+)] *)
Definition pattern3 : regex :=
  Seq (Grp 1 exchange) (Seq (Plus space) (Grp 2 (Plus symbol_char))).

Definition known_symbols : list string :=
  ["RELIANCE"; "TCS"; "INFY"; "HDFC"; "ICICI"; "SBI"; "ITC";
   "HDFCBANK"; "BHARTIARTL"; "KOTAKBANK"; "LT"; "ASIANPAINT";
   "MARUTI"; "TITAN"; "NESTLEIND"; "ULTRACEMCO"; "BAJFINANCE";
   "SENSEX"; "NIFTY"].

(** The loop [for symbol in known_symbols: if symbol in query_upper]. *)
Definition known_symbol (query_upper : string) : option string :=
  find (fun symbol => Str.contains symbol query_upper) known_symbols.

(** The body of [parse_symbol_from_query] after the conversion to upper
    case.  The result is the pair [(symbol, exchange)]; [None] is
    Python's [None]. *)
Definition parse_upper (query_upper : string) : option string * option string :=
  match search pattern1 query_upper with
  | Some m => (group m 2, group m 1)
  | None =>
  match search pattern2 query_upper with
  | Some m => (group m 1, group m 2)
  | None =>
  match search pattern3 query_upper with
  | Some m => (group m 2, group m 1)
  | None =>
  match known_symbol query_upper with
  | Some symbol => (Some symbol, Some "NSE")
  | None => (None, None)
  end end end end.

Definition parse_symbol_from_query (query : string) : option string * option string :=
  parse_upper (Str.upper query).

(** [format_instrument_key] *)
Definition format_instrument_key (symbol exchange : string) : string :=
  exchange ++ ":" ++ symbol.

End TradingAgent.

(** ** Python floats *)

Module Float.

Definition prec : Z := 53.
Definition emax : Z := 1024.

(** The float of an integer literal such as [100.00], and of a decimal
    literal [num/den] such as [45.99]: the nearest binary64 number. *)
Definition of_Z (z : Z) : spec_float := binary_normalize prec emax z 0 false.

Definition lit (num den : Z) : spec_float :=
  SFdiv prec emax (of_Z num) (of_Z den).

(** The conversion of an [int] operand of a float operation: Python
    raises [OverflowError] when the integer is beyond the floats. *)
Definition of_int (n : Z) : PyResult spec_float :=
  match of_Z n with
  | S754_infinity _ => Raised (OverflowError "int too large to convert to float")
  | f => Returned f
  end.

(** [x * n] for a float [x] and an int [n]. *)
Definition mul_int (x : spec_float) (n : Z) : PyResult spec_float :=
  y <- of_int n ;; Returned (SFmul prec emax x y).

Definition add (x y : spec_float) : spec_float := SFadd prec emax x y.

(** [int(x)]: truncation towards zero. *)
Definition to_int (x : spec_float) : PyResult Z :=
  match x with
  | S754_zero _ => Returned 0%Z
  | S754_finite sign m e =>
      let magnitude := Z.shiftl (Zpos m) e in
      Returned (if sign then Z.opp magnitude else magnitude)
  | S754_infinity _ => Raised (OverflowError "cannot convert float infinity to integer")
  | S754_nan => Raised (ValueError "cannot convert float NaN to integer")
  end.

End Float.

(** ** automotive_multi-agent.py *)

Module Automotive.

(** *** Data models *)

Record WorkflowStep : Type := mkStep {
  step_id : string;
  agent_type : string;
  action : string;
  parameters : Dict;
  dependencies : list string;
  status : string
}.

(** The constructor call [WorkflowStep(...)] with the defaults of the
    class: no dependencies, status ["pending"]. *)
Definition new_step (id agent act : string) (params : Dict)
    (deps : list string) : WorkflowStep :=
  mkStep id agent act params deps "pending".

Record WorkflowPlan : Type := mkPlan {
  request_id : string;
  original_query : string;
  steps : list WorkflowStep;
  execution_order : list string;
  parallel_groups : list (list string)
}.

Record WorkflowResult : Type := mkResult {
  result_step_id : string;
  success : bool;
  result : PyVal;
  error_message : option string
}.

(** *** Mock tools *)

Section Tools.

(** [format(x)] of a float inside an f-string, a builtin of Python. *)
Variable format_float : spec_float -> string.

Definition get_repair_order_details (ro_number : string) : Dict :=
  if String.eqb ro_number "RO_001" then
    [ ("success", PBool true);
      ("tool", PStr "get_repair_order_details");
      ("result", PDict
         [ ("roNumber", PStr ro_number);
           ("status", PStr "IN_PROGRESS");
           ("customerId", PStr "CUST_001");
           ("vehicleId", PStr "VEH_001");
           ("customerEmail", PStr "customer@example.com");
           ("totalAmount", PFloat (Float.lit 14599 100));
           ("parts", PList []);
           ("canModify", PBool true);
           ("createdDate", PStr "2025-01-15") ]);
      ("timestamp", PStr "2025-01-15T10:30:00Z");
      ("mcp_server", PStr "repair-orders-server-3003") ]
  else
    [ ("success", PBool false);
      ("error", PStr "Repair Order Not Found");
      ("message", PStr ("Repair order " ++ ro_number ++ " not found"));
      ("tool", PStr "get_repair_order_details");
      ("mcp_server", PStr "repair-orders-server-3003") ].

(** The statements that follow the two [return]s of
    [get_part_by_number] in the file are never reached. *)
Definition get_part_by_number (part_number : string) : Dict :=
  if String.eqb part_number "PART_001" then
    [ ("success", PBool true);
      ("tool", PStr "get_part_by_number");
      ("result", PDict
         [ ("partNumber", PStr part_number);
           ("description", PStr "Brake Pad Set - Front");
           ("category", PStr "BRAKES");
           ("unitPrice", PFloat (Float.lit 4599 100));
           ("currency", PStr "INR");
           ("brand", PStr "OEM");
           ("inStock", PBool true);
           ("availableQuantity", PInt 25);
           ("compatibility", PList [PStr "Honda Civic"; PStr "Honda Accord"]) ]);
      ("timestamp", PStr "2025-01-15T10:30:00Z");
      ("mcp_server", PStr "parts-server-3005") ]
  else
    [ ("success", PBool false);
      ("error", PStr "Part Not Found");
      ("message", PStr ("Part " ++ part_number ++ " not found in catalog"));
      ("tool", PStr "get_part_by_number");
      ("mcp_server", PStr "parts-server-3005") ].

(** The dictionary is built entry by entry: the three products
    [45.99 * quantity] are computed in the order of the source. *)
Definition add_part_to_repair_order (ro_number part_number : string)
    (quantity : Z) : PyResult Dict :=
  totalPrice <- Float.mul_int (Float.lit 4599 100) quantity ;;
  partsTotal <- Float.mul_int (Float.lit 4599 100) quantity ;;
  parts <- Float.mul_int (Float.lit 4599 100) quantity ;;
  Returned
    [ ("success", PBool true);
      ("tool", PStr "add_part_to_repair_order");
      ("result", PDict
         [ ("roNumber", PStr ro_number);
           ("partAdded", PDict
              [ ("partNumber", PStr part_number);
                ("quantity", PInt quantity);
                ("unitPrice", PFloat (Float.lit 4599 100));
                ("totalPrice", PFloat totalPrice) ]);
           ("updatedTotals", PDict
              [ ("partsTotal", PFloat partsTotal);
                ("laborTotal", PFloat (Float.of_Z 100));
                ("grandTotal", PFloat (Float.add parts (Float.of_Z 100))) ]);
           ("inventoryReserved", PBool true) ]);
      ("timestamp", PStr "2025-01-15T10:30:00Z");
      ("message", PStr ("Successfully added " ++ Str.of_Z quantity ++ "x "
                        ++ part_number ++ " to repair order " ++ ro_number));
      ("mcp_server", PStr "repair-orders-server-3003") ].

(** [^[^\s@]+@[^\s@]+\.[^\s@]+$] *)
Definition email_regex : Re.regex :=
  Re.Seq Re.Bol
    (Re.Seq (Re.Plus Re.email_char)
      (Re.Seq (Re.Lit "@")
        (Re.Seq (Re.Plus Re.email_char)
          (Re.Seq (Re.Lit ".")
            (Re.Seq (Re.Plus Re.email_char) Re.Eol))))).

Definition create_payment_link (ro_number : string) (amount : spec_float)
    (customer_email currency : string) : PyResult Dict :=
  match Re.re_match email_regex customer_email with
  | None =>
      Returned
        [ ("success", PBool false);
          ("error", PStr "Invalid Email");
          ("message", PStr "Valid customer email is required");
          ("tool", PStr "create_payment_link") ]
  | Some _ =>
      if SFleb amount (Float.of_Z 0) || SFltb (Float.of_Z 999999999) amount then
        Returned
          [ ("success", PBool false);
            ("error", PStr "Invalid Amount");
            ("message", PStr "Payment amount must be between 0 and 999999999");
            ("tool", PStr "create_payment_link") ]
      else
        units <- Float.to_int amount ;;
        let payment_link_id := "PL_" ++ ro_number ++ "_" ++ Str.of_Z units in
        Returned
          [ ("success", PBool true);
            ("tool", PStr "create_payment_link");
            ("result", PDict
               [ ("paymentLinkId", PStr payment_link_id);
                 ("paymentUrl",
                  PStr ("https://payments.cacargroup.com/pay/" ++ payment_link_id));
                 ("amount", PFloat amount);
                 ("currency", PStr currency);
                 ("customerEmail", PStr customer_email);
                 ("roNumber", PStr ro_number);
                 ("expiresAt", PStr "2025-01-16T10:30:00Z");
                 ("status", PStr "ACTIVE") ]);
            ("timestamp", PStr "2025-01-15T10:30:00Z");
            ("message", PStr ("Payment link created for " ++ currency ++ " "
                              ++ format_float amount ++ " sent to "
                              ++ customer_email));
            ("mcp_server", PStr "payment-server-3002") ]
  end.

(** The operations that the domain specialists can invoke: the [tools]
    of [repair_orders_agent], [parts_agent] and [payment_agent]. *)
Inductive ToolCall : Type :=
| Call_get_repair_order_details (ro_number : string)
| Call_get_part_by_number (part_number : string)
| Call_add_part_to_repair_order (ro_number part_number : string) (quantity : Z)
| Call_create_payment_link (ro_number : string) (amount : spec_float)
    (customer_email currency : string).

Definition invoke (c : ToolCall) : PyResult Dict :=
  match c with
  | Call_get_repair_order_details ro => Returned (get_repair_order_details ro)
  | Call_get_part_by_number part => Returned (get_part_by_number part)
  | Call_add_part_to_repair_order ro part quantity =>
      add_part_to_repair_order ro part quantity
  | Call_create_payment_link ro amount email currency =>
      create_payment_link ro amount email currency
  end.

End Tools.

(** *** The plan builder *)

Definition defensive_steps : list WorkflowStep :=
  [ new_step "validate_1" "repair_orders" "validate_repair_order"
      [ ("ro_number", PStr "RO_001") ] [];
    new_step "validate_2" "parts" "validate_part_exists"
      [ ("part_number", PStr "PART_001") ] [ "validate_1" ];
    new_step "execute_1" "parts" "add_part_to_order"
      [ ("ro_number", PStr "RO_001"); ("part_number", PStr "PART_001");
        ("quantity", PInt 1) ]
      [ "validate_5" ];
    new_step "execute_2" "payment" "create_payment_link"
      [ ("ro_number", PStr "RO_001"); ("amount", PFloat (Float.of_Z 100));
        ("customer_email", PStr "abc@gmail.com"); ("currency", PStr "USD") ]
      [ "execute_1" ] ].

Definition analyze_multi_domain_request (query : string) : WorkflowPlan :=
  if Str.contains "add part" (Str.lower query)
     && Str.contains "payment link" (Str.lower query)
  then
    mkPlan "REQ_001_DEFENSIVE" query defensive_steps
      [ "validate_1"; "validate_2"; "execute_1"; "execute_2" ] []
  else
    mkPlan "REQ_002" query
      [ new_step "step_1" "general" "handle_query" [ ("query", PStr query) ] [] ]
      [ "step_1" ] [].

End Automotive.

(** ** AgentsSDKPlaybook.py *)

Module Playbook.

(** *** Structured outputs and agents *)

Inductive Action : Type :=
| handoff_to_french
| handoff_to_spanish
| handoff_to_german
| complete.

Definition Action_eqb (a b : Action) : bool :=
  match a, b with
  | handoff_to_french, handoff_to_french
  | handoff_to_spanish, handoff_to_spanish
  | handoff_to_german, handoff_to_german
  | complete, complete => true
  | _, _ => false
  end.

Record TriageDecision : Type := mkDecision {
  action : Action;
  message : string;
  remaining_languages : list string
}.

(** The four agents that [create_agents] returns. *)
Inductive Agent : Type :=
| triage_agent
| french_agent
| spanish_agent
| german_agent.

Definition Agent_eqb (a b : Agent) : bool :=
  match a, b with
  | triage_agent, triage_agent
  | french_agent, french_agent
  | spanish_agent, spanish_agent
  | german_agent, german_agent => true
  | _, _ => false
  end.

Definition name (a : Agent) : string :=
  match a with
  | triage_agent => "triage_agent"
  | french_agent => "french_agent"
  | spanish_agent => "spanish_agent"
  | german_agent => "german_agent"
  end.

(** The [handoffs] of the agents once [create_agents] has wired them. *)
Definition handoffs (a : Agent) : list Agent :=
  match a with
  | triage_agent => [french_agent; spanish_agent; german_agent]
  | french_agent | spanish_agent | german_agent => [triage_agent]
  end.

(** [result.final_output]: an instance of [TriageDecision], or a value
    of another type (the text of a specialist). *)
Inductive Output : Type :=
| Decision (d : TriageDecision)
| Text (s : string).

(** One entry of the input list of a run. *)
Definition Item : Type := Dict.

(** What [Runner.run] hands back: the final output, the items that the
    run produced, and the agent that was active when it ended. *)
Record RunResult : Type := mkRun {
  final_output : Output;
  new_items : list Item;
  last_agent : Agent
}.

(** [result.to_input_list()]: the input of the run, then its new items. *)
Definition to_input_list (input : list Item) (result : RunResult) : list Item :=
  (input ++ new_items result)%list.

(** *** The conversation loop of [main] *)

(** The lines that the loop prints. *)
Inductive Printed : Type :=
| Agent_running (agent_name : string)
| Final_output (o : Output)
| Blank
| Triage_decision (a : Action) (remaining : list string)
| Workflow_completed
| Unexpected_response_type
| Too_many_iterations.

(** The variables of the inner [while True] loop, with the record of the
    agents that [Runner.run] was called on and of what was printed. *)
Record State : Type := mkState {
  inputs : list Item;
  agent : Agent;
  invoked : list Agent;
  printed : list Printed
}.

Inductive Step : Type :=
| Continue (st : State)
| Break (st : State).

Section Loop.

(** [Runner.run(agent, input=inputs)], an answer of the SDK and of the
    language model; the first argument counts the earlier runs of the
    exchange. *)
Variable run : nat -> Agent -> list Item -> RunResult.

(** The safety check that ends the body of the loop. *)
Definition safety_check (st : State) : Step :=
  if 20 <? List.length (inputs st) then
    Break (mkState (inputs st) (agent st) (invoked st)
             (printed st ++ [Too_many_iterations]))
  else Continue st.

(** One pass through the body of the inner loop.  No statement under
    [try] can raise, so that the [except] branch is left out. *)
Definition body (st : State) : Step :=
  let result := run (List.length (invoked st)) (agent st) (inputs st) in
  let st1 :=
    mkState (to_input_list (inputs st) result) (last_agent result)
      (invoked st ++ [agent st])
      (printed st ++ [Agent_running (name (agent st));
                      Final_output (final_output result); Blank]) in
  if Agent_eqb (agent st1) triage_agent then
    match final_output result with
    | Decision triage_response =>
        let st2 :=
          mkState (inputs st1) (agent st1) (invoked st1)
            (printed st1 ++ [Triage_decision (action triage_response)
                               (remaining_languages triage_response)]) in
        if Action_eqb (action triage_response) complete then
          Break (mkState (inputs st2) (agent st2) (invoked st2)
                   (printed st2 ++ [Workflow_completed]))
        else safety_check st2
    | Text _ =>
        Break (mkState (inputs st1) (agent st1) (invoked st1)
                 (printed st1 ++ [Unexpected_response_type]))
    end
  else safety_check st1.

(** The inner loop; [None] when [fuel] passes did not reach a [break]. *)
Fixpoint loop (fuel : nat) (st : State) : option State :=
  match fuel with
  | O => None
  | S fuel' =>
      match body st with
      | Break st' => Some st'
      | Continue st' => loop fuel' st'
      end
  end.

(** The exchange that a message of the user starts: fresh inputs, and
    the triage agent first. *)
Definition start (msg : string) : State :=
  mkState [[("content", PStr msg); ("role", PStr "user")]] triage_agent [] [].

Definition exchange (fuel : nat) (msg : string) : option State :=
  loop fuel (start msg).

End Loop.

End Playbook.

(** ** The properties that the specification states *)

Module Spec.

Import Automotive.

(** The query of the specification. *)
Definition compound_query : string :=
  "Add part PART_001 to RO_001 and send a payment link of 100 to a@b.com".

Definition step_ids (p : WorkflowPlan) : list string := List.map step_id (steps p).

Definition mem (x : string) (l : list string) : bool := existsb (String.eqb x) l.

(** The position of a step identifier in an execution order. *)
Fixpoint position (x : string) (l : list string) : option nat :=
  match l with
  | [] => None
  | y :: l' =>
      if String.eqb x y then Some 0
      else match position x l' with
           | Some n => Some (S n)
           | None => None
           end
  end.

(** A step has a dangling dependency when it names a step identifier
    that no step of the plan carries. *)
Definition dangling_step (p : WorkflowPlan) (s : WorkflowStep) : bool :=
  existsb (fun d => negb (mem d (step_ids p))) (dependencies s).

Definition has_dangling_dependency (p : WorkflowPlan) : bool :=
  existsb (dangling_step p) (steps p).

(** [d] stands strictly before [s] in the execution order. *)
Definition earlier (order : list string) (d s : string) : bool :=
  match position d order, position s order with
  | Some i, Some j => i <? j
  | _, _ => false
  end.

Definition dependencies_earlier (p : WorkflowPlan) (s : WorkflowStep) : bool :=
  forallb (fun d => earlier (execution_order p) d (step_id s)) (dependencies s).

(** The execution order is a topological sort of the dependency graph. *)
Definition respects_dependencies (p : WorkflowPlan) : bool :=
  forallb (dependencies_earlier p) (steps p).

(** The two phases of a compound plan. *)
Definition validation_step (s : WorkflowStep) : bool :=
  Str.startswith (step_id s) "validate_".

Definition execution_step (s : WorkflowStep) : bool :=
  Str.startswith (step_id s) "execute_".

(** The entities that a step names: the string arguments of its call. *)
Fixpoint entities (params : Dict) : list (string * string) :=
  match params with
  | [] => []
  | (k, PStr v) :: params' => (k, v) :: entities params'
  | _ :: params' => entities params'
  end.

Definition same_entity (a b : string * string) : bool :=
  String.eqb (fst a) (fst b) && String.eqb (snd a) (snd b).

(** The validation step [v] certifies an entity that the step [e] touches. *)
Definition certifies (v e : WorkflowStep) : bool :=
  existsb (fun a => existsb (same_entity a) (entities (parameters e)))
    (entities (parameters v)).

(** Every execution step depends on all validation steps that certify
    an entity it touches. *)
Definition execution_depends_on_validations (p : WorkflowPlan) : bool :=
  forallb (fun e =>
    negb (execution_step e) ||
    forallb (fun v =>
      negb (validation_step v && certifies v e) ||
      mem (step_id v) (dependencies e)) (steps p)) (steps p).

(** The steps that a step depends on through at most [depth] links of
    the lists of dependencies. *)
Definition dependencies_of (p : WorkflowPlan) (id : string) : list string :=
  flat_map dependencies (filter (fun s => String.eqb (step_id s) id) (steps p)).

Fixpoint ancestors (p : WorkflowPlan) (depth : nat) (id : string) : list string :=
  match depth with
  | O => []
  | S depth' =>
      (dependencies_of p id
       ++ flat_map (ancestors p depth') (dependencies_of p id))%list
  end.

(** Two validation steps, then two execution steps. *)
Definition two_validations_then_two_executions (p : WorkflowPlan) : bool :=
  match steps p with
  | [v1; v2; e1; e2] =>
      validation_step v1 && validation_step v2
      && execution_step e1 && execution_step e2
  | _ => false
  end.

(** The payment step depends on the step that adds the part. *)
Definition payment_depends_on_part_addition (p : WorkflowPlan) : bool :=
  forallb (fun pay =>
    negb (String.eqb (action pay) "create_payment_link") ||
    forallb (fun add =>
      negb (String.eqb (action add) "add_part_to_order") ||
      mem (step_id add) (dependencies pay)) (steps p)) (steps p).

(** The uniform envelope of the collaborators: a success flag, a result
    or an error, a message and the identifier of the source. *)
Definition uniform_envelope (d : Dict) : bool :=
  has_key d "success"
  && (has_key d "result" || has_key d "error")
  && has_key d "message"
  && has_key d "mcp_server".

(** What the envelopes of the mock tools have in common. *)
Definition tool_envelope (d : Dict) : bool :=
  has_key d "tool" &&
  match dict_get d "success" with
  | Some (PBool true) =>
      has_key d "result" && has_key d "timestamp" && has_key d "mcp_server"
      && negb (has_key d "error")
  | Some (PBool false) =>
      has_key d "error" && has_key d "message" && negb (has_key d "result")
  | _ => false
  end.

(** The last line that an exchange printed. *)
Definition outcome (st : Playbook.State) : option Playbook.Printed :=
  List.last (List.map Some (Playbook.printed st)) None.

(** The triage agent announced the decision [complete]. *)
Definition announced_complete (st : Playbook.State) : Prop :=
  exists remaining,
    In (Playbook.Triage_decision Playbook.complete remaining) (Playbook.printed st).

(** Lines that announce no decision [complete]. *)
Definition quiet (l : list Playbook.Printed) : Prop :=
  forall remaining,
    ~ In (Playbook.Triage_decision Playbook.complete remaining) l.

(** What one pass through the body does to the variables of the loop. *)
Definition pass
    (run : nat -> Playbook.Agent -> list Playbook.Item -> Playbook.RunResult)
    (st st' : Playbook.State) : Prop :=
  let r := run (List.length (Playbook.invoked st)) (Playbook.agent st)
             (Playbook.inputs st) in
  Playbook.inputs st' = (Playbook.inputs st ++ Playbook.new_items r)%list
  /\ Playbook.invoked st' = (Playbook.invoked st ++ [Playbook.agent st])%list
  /\ Playbook.agent st' = Playbook.last_agent r.

(** How an exchange ends: with the line of completion after a decision
    [complete], with the line of an unexpected answer of the triage
    agent, or with the warning of the safety check. *)
Definition reported (st : Playbook.State) : Prop :=
  (outcome st = Some Playbook.Workflow_completed /\ announced_complete st)
  \/ (outcome st = Some Playbook.Unexpected_response_type
      /\ ~ announced_complete st)
  \/ (outcome st = Some Playbook.Too_many_iterations
      /\ ~ announced_complete st
      /\ 20 < List.length (Playbook.inputs st)).

(** The triage agent always answers with a decision, and never with the
    decision [complete]. *)
Definition never_complete
    (run : nat -> Playbook.Agent -> list Playbook.Item -> Playbook.RunResult) : Prop :=
  forall n a i,
    Playbook.last_agent (run n a i) = Playbook.triage_agent ->
    exists d,
      Playbook.final_output (run n a i) = Playbook.Decision d
      /\ Playbook.action d <> Playbook.complete.

(** Two runners for the examples: a triage agent that decides [complete]
    at once, and one that hands off to the French specialist for ever. *)
Definition assistant_item (text : string) : Playbook.Item :=
  [("content", PStr text); ("role", PStr "assistant")].

Definition run_completes (n : nat) (a : Playbook.Agent) (i : list Playbook.Item)
    : Playbook.RunResult :=
  Playbook.mkRun
    (Playbook.Decision (Playbook.mkDecision Playbook.complete "All done" []))
    [assistant_item "All done"] Playbook.triage_agent.

Definition run_hands_off (n : nat) (a : Playbook.Agent) (i : list Playbook.Item)
    : Playbook.RunResult :=
  match a with
  | Playbook.triage_agent =>
      Playbook.mkRun (Playbook.Text "Bonjour") [assistant_item "Bonjour"]
        Playbook.french_agent
  | _ =>
      Playbook.mkRun
        (Playbook.Decision
           (Playbook.mkDecision Playbook.handoff_to_french "French next" ["french"]))
        [assistant_item "French next"] Playbook.triage_agent
  end.

End Spec.

(** ** The texts that a pattern matches *)

Module ReLang.

Import Re.

(** All characters of a text are in a class. *)
Fixpoint all (cls : ascii -> bool) (s : string) : bool :=
  match s with
  | EmptyString => true
  | String c s' => cls c && all cls s'
  end.

(** [lang r pos pre rest]: the pattern [r] can match the text [pre] when
    [pre] starts at position [pos] of the subject and [rest] follows. *)
Fixpoint lang (r : regex) (pos : nat) (pre rest : string) : Prop :=
  match r with
  | Lit p => pre = p
  | Plus cls => pre <> "" /\ all cls pre = true
  | Alt r1 r2 => lang r1 pos pre rest \/ lang r2 pos pre rest
  | Seq r1 r2 =>
      exists s1 s2,
        pre = s1 ++ s2
        /\ lang r1 pos s1 (s2 ++ rest)
        /\ lang r2 (pos + String.length s1) s2 rest
  | Grp _ r1 => lang r1 pos pre rest
  | Bol => pre = "" /\ pos = 0
  | Eol => pre = "" /\ (rest = "" \/ rest = String "010" "")
  end.

(** [captured r n t]: the group [n] of [r] can take the text [t]. *)
Fixpoint captured (r : regex) (n : nat) (t : string) : Prop :=
  match r with
  | Lit _ | Plus _ | Bol | Eol => False
  | Alt r1 r2 | Seq r1 r2 => captured r1 n t \/ captured r2 n t
  | Grp i r1 =>
      (i = n /\ exists pos rest, lang r1 pos t rest) \/ captured r1 n t
  end.

(** The groups [g'] are the groups [g] and new ones that [r] can take. *)
Definition adds (r : regex) (g g' : groups) : Prop :=
  exists new,
    g' = (new ++ g)%list /\ forall n t, In (n, t) new -> captured r n t.

End ReLang.

(** ** The exchanges of the trading agent *)

Module TradingSpec.

(** The exchanges that the three patterns name; the welcome message
    lists the same four as supported. *)
Definition supported_exchanges : list string := ["NSE"; "BSE"; "NFO"; "MCX"].

(** A symbol as the patterns take it: one or more of [[A-Z0-9&\-]]. *)
Definition well_formed_symbol (symbol : string) : Prop :=
  symbol <> "" /\ ReLang.all Re.symbol_char symbol = true.

(** The text can only end, or go on with a character outside the class. *)
Definition stops (cls : ascii -> bool) (rest : string) : bool :=
  match rest with
  | EmptyString => true
  | String c _ => negb (cls c)
  end.

End TradingSpec.

(** ** trading_agent.py: quotes *)

Module Quotes.

(** The values that [json.loads] builds.  An object becomes a dictionary
    that keeps the order of its keys. *)
#[warnings="-register-all"]
Inductive Json : Type :=
| JNull
| JBool (b : bool)
| JInt (z : Z)
| JFloat (f : spec_float)
| JStr (s : string)
| JList (l : list Json)
| JDict (d : list (string * Json)).

Definition JObject : Type := list (string * Json).

(** [d.get(key)], with [None] for a missing key. *)
Fixpoint get (d : JObject) (key : string) : option Json :=
  match d with
  | [] => None
  | (k, v) :: d' => if String.eqb k key then Some v else get d' key
  end.

(** [d.get(key, default)] *)
Definition get_default (d : JObject) (key : string) (default : Json) : Json :=
  match get d key with
  | Some v => v
  | None => default
  end.

(** [value != "success"] *)
Definition differs_from_success (value : option Json) : bool :=
  match value with
  | Some (JStr s) => negb (String.eqb s "success")
  | _ => true
  end.

(** The dictionary that [extract_quote_data] returns for an entry. *)
Definition quote_of (instrument_key : string) (quote_info : JObject) : JObject :=
  [ ("symbol", JStr instrument_key);
    ("last_price", get_default quote_info "last_price" (JInt 0));
    ("volume", get_default quote_info "volume" (JInt 0));
    ("ohlc", get_default quote_info "ohlc" (JDict []));
    ("net_change", get_default quote_info "net_change" (JInt 0));
    ("instrument_token", get_default quote_info "instrument_token" (JInt 0)) ].

(** The loop over [quote_data.items()].  An entry that is no dictionary
    has no [get]: the AttributeError ends the search with [None]. *)
Fixpoint first_quote (symbol_upper : string) (items : JObject) : option JObject :=
  match items with
  | [] => None
  | (instrument_key, quote_info) :: items' =>
      if Str.contains symbol_upper (Str.upper instrument_key) then
        match quote_info with
        | JDict info => Some (quote_of instrument_key info)
        | _ => None
        end
      else first_quote symbol_upper items'
  end.

Section Parse.

(** [json.loads], with [None] when it raises JSONDecodeError. *)
Variable json_loads : string -> option Json.

(** Only a dictionary has [get], [keys] and [items]; on any other value
    the call raises AttributeError, which both functions catch. *)
Definition filter_symbol_data (quote_data_string symbol : string) : bool :=
  let fallback :=
    Str.contains (Str.upper symbol) (Str.upper quote_data_string) in
  match json_loads quote_data_string with
  | Some (JDict data) =>
      if differs_from_success (get data "status") then false
      else
        match get_default data "data" (JDict []) with
        | JDict quote_data =>
            existsb (fun key => Str.contains (Str.upper symbol) (Str.upper key))
              (List.map fst quote_data)
        | _ => fallback
        end
  | _ => fallback
  end.

Definition extract_quote_data (quote_data_string symbol : string) : option JObject :=
  match json_loads quote_data_string with
  | Some (JDict data) =>
      match get_default data "data" (JDict []) with
      | JDict quote_data => first_quote (Str.upper symbol) quote_data
      | _ => None
      end
  | _ => None
  end.

End Parse.

(** A response in which every quote is an object. *)
Definition quotes_are_objects (quote_data : JObject) : Prop :=
  forall key value, In (key, value) quote_data -> exists info, value = JDict info.

End Quotes.

(** ** trading_agent.py: authentication and sessions *)

Module Session.

(** What a call of [Runner.run] gives inside a [try]: an exception, or
    a result whose final output is turned into text with [str]. *)
Inductive Answer : Type :=
| Raises
| Outputs (output : string).

(** What the methods do, in order: the runs of the agent, the pauses,
    the streaming of quotes, and the messages that they print (one event
    for the lines of one message). *)
Inductive Event : Type :=
| Print_initializing
| Print_agent_created
| Print_authenticating
| Run_profile
| Print_login_required (attempt : nat)
| Run_login
| Print_complete_in_browser
| Sleep (seconds : nat)
| Welcome (profile_data : string)
| Print_error (attempt : nat)
| Print_failed_after_all_attempts
| Print_authentication_failed
| Print_authentication_successful
| Print_no_query
| Print_processing (user_query : string)
| Print_analyzing (symbol exchange : string)
| Run_quote (prompt : string)
| Print_quote_error (symbol : string)
| Print_analysis_error (msg : string)
| Print_starting_stream (symbol exchange : string)
| Stream (symbol exchange : string) (duration_minutes : nat).

(** [any(keyword in output.lower() for keyword in [...])] *)
Definition needs_login (output : string) : bool :=
  existsb (fun keyword => Str.contains keyword (Str.lower output))
    ["login"; "authenticate"; "session"].

Definition asks_to_log_in (login_output : string) : bool :=
  Str.contains "login" (Str.lower login_output)
  && Str.contains "kite" (Str.lower login_output).

Section Authentication.

(** The answers to the request of the profile and to the call of the
    login tool in each attempt. *)
Variable profile_run : nat -> Answer.
Variable login_run : nat -> Answer.

(** The loop [for attempt in range(max_attempts)], with [left] attempts
    to go, and what follows the loop. *)
Fixpoint attempts (left attempt : nat) : bool * list Event :=
  match left with
  | O => (false, [Print_failed_after_all_attempts])
  | S left' =>
      let next events :=
        let (ok, later) := attempts left' (S attempt) in (ok, (events ++ later)%list) in
      match profile_run attempt with
      | Raises => next [Run_profile; Print_error (attempt + 1)]
      | Outputs output =>
          if needs_login output then
            match login_run attempt with
            | Raises =>
                next [Run_profile; Print_login_required (attempt + 1);
                      Run_login; Print_error (attempt + 1)]
            | Outputs login_output =>
                if asks_to_log_in login_output then
                  next [Run_profile; Print_login_required (attempt + 1);
                        Run_login; Print_complete_in_browser; Sleep 5]
                else
                  next [Run_profile; Print_login_required (attempt + 1);
                        Run_login]
            end
          else (true, [Run_profile; Welcome output])
      end
  end.

Definition max_attempts : nat := 3.

Definition _get_user_profile : bool * list Event := attempts max_attempts 0.

Definition _authenticate_and_welcome : bool * list Event :=
  let (profile_result, events) := _get_user_profile in
  if negb profile_result then
    (false, (Print_authenticating :: events ++ [Print_authentication_failed])%list)
  else
    (true, (Print_authenticating :: events ++ [Print_authentication_successful])%list).

(** [initialize]: the agent is created, then the user is authenticated;
    what the authentication returns is dropped. *)
Definition initialize : list Event :=
  (Print_initializing :: Print_agent_created :: snd _authenticate_and_welcome)%list.

End Authentication.

(** How often an attempt asked for the profile, called the login tool,
    and how long it slept. *)
Definition profile_runs (events : list Event) : nat :=
  List.length (filter (fun e => match e with Run_profile => true | _ => false end) events).

Definition login_runs (events : list Event) : nat :=
  List.length (filter (fun e => match e with Run_login => true | _ => false end) events).

Definition seconds_slept (events : list Event) : nat :=
  list_sum (List.map (fun e => match e with Sleep n => n | _ => 0 end) events).

(** The profile was obtained: an output that does not ask for a login. *)
Definition clean (a : Answer) : bool :=
  match a with
  | Raises => false
  | Outputs output => negb (needs_login output)
  end.

(** *** Analysis of a query *)

(** The attributes of the agent that the analysis sets. *)
Record Agent : Type := mkAgent {
  current_symbol : option string;
  current_exchange : option string
}.

(** Python's truth value of an optional text. *)
Definition truthy (o : option string) : bool :=
  match o with
  | Some (String _ _) => true
  | _ => false
  end.

Section Analysis.

(** The result of a run, an object of the SDK. *)
Variable Quote : Type.

(** [Runner.run(self.agent, input=prompt)] inside [get_stock_quote]:
    [None] when the run raises. *)
Variable runner : string -> option Quote.

(** [datetime.now().isoformat()] *)
Variable now : string.

(** The values of the dictionary that the analysis returns. *)
Inductive Field : Type :=
| FText (s : string)
| FQuote (q : Quote).

Definition quote_prompt (symbol exchange : string) : string :=
  "Get the current real-time quote for " ++ symbol ++ " stock on " ++ exchange
  ++ " exchange. Use the get_quotes tool with symbol "
  ++ TradingAgent.format_instrument_key symbol exchange ++ ".".

Definition get_stock_quote (symbol exchange : string) : option Quote * list Event :=
  match runner (quote_prompt symbol exchange) with
  | Some result => (Some result, [Run_quote (quote_prompt symbol exchange)])
  | None =>
      (None, [Run_quote (quote_prompt symbol exchange); Print_quote_error symbol])
  end.

Definition no_symbol_error : string :=
  "Could not extract stock symbol from query. Please specify a symbol like 'RELIANCE', 'NSE:TCS', or 'HDFC on BSE'.".

Definition analyze_stock_from_query (self : Agent) (user_query : string)
    : list (string * Field) * Agent * list Event :=
  let (symbol, exchange) := TradingAgent.parse_symbol_from_query user_query in
  if negb (truthy symbol) then ([("error", FText no_symbol_error)], self, [])
  else
    let symbol := match symbol with Some s => s | None => "" end in
    let exchange :=
      if truthy exchange then match exchange with Some e => e | None => "" end
      else "NSE" in
    let self' := mkAgent (Some symbol) (Some exchange) in
    let (quote_result, events) := get_stock_quote symbol exchange in
    match quote_result with
    | None =>
        ([("error", FText ("Failed to get quote data for " ++ symbol ++ " on "
                           ++ exchange))],
         self', Print_analyzing symbol exchange :: events)
    | Some q =>
        ([("symbol", FText symbol); ("exchange", FText exchange);
          ("quote_result", FQuote q); ("timestamp", FText now)],
         self', Print_analyzing symbol exchange :: events)
    end.

(** ["error" in analysis_result] *)
Definition has_error (analysis_result : list (string * Field)) : bool :=
  existsb (fun entry => String.eqb (fst entry) "error") analysis_result.

(** [analysis_result[key]] for a key that is there. *)
Definition text_at (analysis_result : list (string * Field)) (key : string)
    : string :=
  match find (fun entry => String.eqb (fst entry) key) analysis_result with
  | Some (_, FText s) => s
  | _ => ""
  end.

(** [run_trading_session]; the streaming of the quotes is the event
    [Stream]. *)
Variable profile_run : nat -> Answer.
Variable login_run : nat -> Answer.

Definition run_trading_session (self : Agent) (user_query : option string)
    : Agent * list Event :=
  let started := initialize profile_run login_run in
  if negb (truthy user_query) then (self, (started ++ [Print_no_query])%list)
  else
    let user_query := match user_query with Some q => q | None => "" end in
    match analyze_stock_from_query self user_query with
    | (analysis_result, self', events) =>
        if has_error analysis_result then
          (self', (started ++ Print_processing user_query :: events
                   ++ [Print_analysis_error (text_at analysis_result "error")])%list)
        else
          let symbol := text_at analysis_result "symbol" in
          let exchange := text_at analysis_result "exchange" in
          (self', (started ++ Print_processing user_query :: events
                   ++ [Print_starting_stream symbol exchange;
                       Stream symbol exchange 30])%list)
    end.

(** The query that [main] analyses. *)
Definition main_query : string :=
  "Do live analysis of RELIANCE stock traded at NSE".

Definition main : Agent * list Event :=
  run_trading_session (mkAgent None None) (Some main_query).

End Analysis.

End Session.

(** ** AgentsSDKPlaybook.py: runs that raise *)

Module PlaybookRaising.

Import Playbook.

(** [await Runner.run(agent, input=inputs)] stands outside the [try] of
    the loop: it returns a result, or it raises an exception that
    nothing in [main] catches. *)
Inductive RunOutcome : Type :=
| Run_returns (result : RunResult)
| Run_raises (exception : string).

(** How the inner loop is left: through one of its [break]s, or by the
    exception of a run, which leaves [main]. *)
Inductive Exit : Type :=
| Loop_left (st : State)
| Exception_leaves_main (exception : string) (st : State).

Definition state_of (e : Exit) : State :=
  match e with
  | Loop_left st => st
  | Exception_leaves_main _ st => st
  end.

Section Loop.

Variable run : nat -> Agent -> list Item -> RunOutcome.

(** One pass: the name of the agent is printed and the agent is run; on
    a result the pass goes on as [Playbook.body] does with that result. *)
Definition body (st : State) : Step + string * State :=
  match run (List.length (invoked st)) (agent st) (inputs st) with
  | Run_returns result => inl (Playbook.body (fun _ _ _ => result) st)
  | Run_raises exception =>
      inr (exception,
           mkState (inputs st) (agent st) (invoked st ++ [agent st])
             (printed st ++ [Agent_running (name (agent st))]))
  end.

Fixpoint loop (fuel : nat) (st : State) : option Exit :=
  match fuel with
  | O => None
  | S fuel' =>
      match body st with
      | inl (Break st') => Some (Loop_left st')
      | inl (Continue st') => loop fuel' st'
      | inr (exception, st') => Some (Exception_leaves_main exception st')
      end
  end.

Definition exchange (fuel : nat) (msg : string) : option Exit :=
  loop fuel (start msg).

End Loop.





End PlaybookRaising.

(** How an exchange with runs that can raise ends: as an exchange of
    [Playbook] does, or with the exception of the run of the agent whose
    name was printed last. *)
Definition ended (e : PlaybookRaising.Exit) : Prop :=
  match e with
  | PlaybookRaising.Loop_left st => Spec.reported st
  | PlaybookRaising.Exception_leaves_main _ st =>
      Spec.outcome st
        = Some (Playbook.Agent_running (Playbook.name (Playbook.agent st)))
      /\ ~ Spec.announced_complete st
  end.

(** ** AgentsSDKPlaybook.py: the session of [main] *)

Module PlaybookMain.

Import Playbook PlaybookRaising.

(** How the session ends: with the goodbye after a word of leave, with
    the EOFError of [input] when no line is left, with the exception of
    a run, or inside an exchange whose loop was not left. *)
Inductive Ending : Type :=
| Goodbye
| End_of_input
| Exception_raised (exception : string)
| Unfinished.

(** [user_msg.lower() in ['quit', 'exit', 'bye']] *)
Definition quits (user_msg : string) : bool :=
  existsb (String.eqb (Str.lower user_msg)) ["quit"; "exit"; "bye"].

(** The lines that are read before the first word of leave. *)
Fixpoint before_quit (lines : list string) : list string :=
  match lines with
  | [] => []
  | line :: lines' => if quits line then [] else line :: before_quit lines'
  end.

Section Main.

(** The runs of the agents in each exchange of the session. *)
Variable runs : nat -> nat -> Agent -> list Item -> RunOutcome.

Variable fuel : nat.

(** The outer loop: the exchange that [msg] starts, then the next line
    of the user.  The result lists how the exchanges were left. *)
Fixpoint conversations (n : nat) (msg : string) (later : list string)
    : list Exit * Ending :=
  match PlaybookRaising.exchange (runs n) fuel msg with
  | None => ([], Unfinished)
  | Some (Exception_leaves_main exception st) =>
      ([Exception_leaves_main exception st], Exception_raised exception)
  | Some (Loop_left st) =>
      match later with
      | [] => ([Loop_left st], End_of_input)
      | user_msg :: later' =>
          if quits user_msg then ([Loop_left st], Goodbye)
          else
            let (exits, ending) := conversations (S n) user_msg later' in
            (Loop_left st :: exits, ending)
      end
  end.

(** The exchanges of the lines, the first with the runs [runs n]. *)
Fixpoint exchanges_of (n : nat) (lines : list string) : list (option Exit) :=
  match lines with
  | [] => []
  | line :: lines' =>
      PlaybookRaising.exchange (runs n) fuel line :: exchanges_of (S n) lines'
  end.

(** [main] on the lines that the user types. *)
Definition main (lines : list string) : list Exit * Ending :=
  match lines with
  | [] => ([], End_of_input)
  | msg :: later => conversations 0 msg later
  end.

End Main.

(** An exchange was left by an exception. *)
Definition raised (e : Exit) : bool :=
  match e with
  | Exception_leaves_main _ _ => true
  | Loop_left _ => false
  end.

(** The runs of [run], none of which raises. *)
Definition returning (run : nat -> Agent -> list Item -> RunResult)
    (n : nat) (a : Agent) (i : list Item) : RunOutcome :=
  Run_returns (run n a i).

End PlaybookMain.

(** ** The email addresses that the payment tool accepts *)

Module PaymentSpec.

(** A local part, an at sign, a domain, a dot and a last part, each part
    non-empty and free of white space and of at signs; a line feed may
    follow, which [$] lets pass. *)
Definition well_formed_email (email : string) : Prop :=
  exists local domain tld tail,
    email = local ++ "@" ++ domain ++ "." ++ tld ++ tail
    /\ (local <> "" /\ ReLang.all Re.email_char local = true)
    /\ (domain <> "" /\ ReLang.all Re.email_char domain = true)
    /\ (tld <> "" /\ ReLang.all Re.email_char tld = true)
    /\ (tail = "" \/ tail = String "010" "").

(** The query names both phrases of a compound request. *)
Definition compound (query : string) : bool :=
  Str.contains "add part" (Str.lower query)
  && Str.contains "payment link" (Str.lower query).

End PaymentSpec.

(** [s.isascii()]: the text on which [str.upper] and [str.lower] change
    the 26 letters only, as [Str.upper] and [Str.lower] do. *)
Definition isascii (s : string) : bool :=
  ReLang.all (fun c => Str.code c <? 128) s.

(** * Theorems *)

(** ** Facts on the matcher *)

Module ReFacts.

Import Re.

Lemma plus_k_calls {R : Type} (cls : ascii -> bool) (s : string) :
  forall (pos : nat) (k : nat -> string -> option R) (x : R),
    plus_k cls pos s k = Some x -> exists pos' s', k pos' s' = Some x.
Proof.
  induction s as [|c s IH]; intros pos k x; simpl.
  - discriminate.
  - destruct (cls c); [|discriminate].
    destruct (plus_k cls (S pos) s k) eqn:E.
    + intros H; inversion H; subst. eapply IH; eassumption.
    + intros H. eauto.
Qed.

Lemma group_cons_set (n : nat) (t : string) (g : groups) :
  group ((n, t) :: g) n <> None.
Proof. simpl. rewrite Nat.eqb_refl. discriminate. Qed.

Lemma group_cons_keeps (n m : nat) (t : string) (g : groups) :
  group g m <> None -> group ((n, t) :: g) m <> None.
Proof. simpl. destruct (Nat.eqb n m); [discriminate | trivial]. Qed.

Lemma defined_alt (r1 r2 : regex) (n : nat) :
  In n (defined (Alt r1 r2)) -> In n (defined r1) /\ In n (defined r2).
Proof.
  simpl. rewrite filter_In, existsb_exists.
  intros [H1 [m [H2 H3]]]. apply Nat.eqb_eq in H3. subst. auto.
Qed.

Lemma exec_defined {R : Type} (r : regex) :
  forall pos s g (k : nat -> string -> groups -> option R) x,
    exec r pos s g k = Some x ->
    exists pos' s' g', k pos' s' g' = Some x /\ extends r g g'.
Proof.
  induction r as [p|cls|r1 IH1 r2 IH2|r1 IH1 r2 IH2|n r1 IH1| |];
    intros pos s g k x; simpl.
  - destruct (Str.strip_prefix p s); [|discriminate].
    intros H. do 3 eexists. split; [eassumption|].
    intros m [[]|Hm]; assumption.
  - intros H. apply plus_k_calls in H. destruct H as (pos' & s' & H).
    do 3 eexists. split; [eassumption|].
    intros m [[]|Hm]; assumption.
  - destruct (exec r1 pos s g k) eqn:E.
    + intros H; inversion H; subst.
      destruct (IH1 _ _ _ _ _ E) as (pos' & s' & g' & Hk & Hg).
      do 3 eexists. split; [eassumption|].
      intros m [Hm|Hm]; apply Hg; [left; now apply (defined_alt r1 r2)|now right].
    + intros H.
      destruct (IH2 _ _ _ _ _ H) as (pos' & s' & g' & Hk & Hg).
      do 3 eexists. split; [eassumption|].
      intros m [Hm|Hm]; apply Hg; [left; now apply (defined_alt r1 r2)|now right].
  - intros H.
    destruct (IH1 _ _ _ _ _ H) as (pos1 & s1 & g1 & H1 & Hg1).
    destruct (IH2 _ _ _ _ _ H1) as (pos2 & s2 & g2 & H2 & Hg2).
    do 3 eexists. split; [eassumption|].
    intros m [Hm|Hm].
    + apply in_app_or in Hm. destruct Hm as [Hm|Hm].
      * apply Hg2. right. apply Hg1. now left.
      * apply Hg2. now left.
    + apply Hg2. right. apply Hg1. now right.
  - intros H.
    destruct (IH1 _ _ _ _ _ H) as (pos1 & s1 & g1 & H1 & Hg1).
    do 3 eexists. split; [eassumption|].
    intros m [[Hm|Hm]|Hm].
    + subst. apply group_cons_set.
    + apply group_cons_keeps, Hg1. now left.
    + apply group_cons_keeps, Hg1. now right.
  - destruct (Nat.eqb pos 0); [|discriminate].
    intros H. do 3 eexists. split; [eassumption|].
    intros m [[]|Hm]; assumption.
  - intros H.
    assert (Hk : k pos s g = Some x).
    { destruct s as [|c [|c' s']]; try discriminate; trivial.
      destruct (Ascii.eqb c "010"); [assumption|discriminate]. }
    do 3 eexists. split; [eassumption|].
    intros m [[]|Hm]; assumption.
Qed.

(** A successful search defines the groups that the pattern defines. *)
Lemma search_from_defined (r : regex) (s : string) :
  forall pos m n,
    search_from r pos s = Some m -> In n (defined r) -> group m n <> None.
Proof.
  induction s as [|c s IH]; intros pos m n; simpl.
  - destruct (exec r pos "" [] (fun _ _ g => Some g)) eqn:E; [|discriminate].
    intros H Hn; inversion H; subst.
    apply exec_defined in E. destruct E as (? & ? & g' & Hk & Hg).
    inversion Hk; subst. apply Hg. now left.
  - destruct (exec r pos (String c s) [] (fun _ _ g => Some g)) eqn:E.
    + intros H Hn; inversion H; subst.
      apply exec_defined in E. destruct E as (? & ? & g' & Hk & Hg).
      inversion Hk; subst. apply Hg. now left.
    + apply IH.
Qed.

Lemma search_defined (r : regex) (s : string) (m : groups) (n : nat) :
  search r s = Some m -> In n (defined r) -> exists t, group m n = Some t.
Proof.
  intros H Hn. pose proof (search_from_defined r s 0 m n H Hn) as Hg.
  destruct (group m n) as [t|]; [eauto | congruence].
Qed.

End ReFacts.

(** ** The extraction of symbol and exchange *)

Module TradingFacts.

Import Re TradingAgent.

Lemma pattern1_defined : defined pattern1 = [1; 2].
Proof. reflexivity. Qed.

Lemma pattern2_defined : defined pattern2 = [1; 2].
Proof. reflexivity. Qed.

Lemma pattern3_defined : defined pattern3 = [1; 2].
Proof. reflexivity. Qed.

Lemma both_groups (r : regex) (s : string) (m : groups) :
  defined r = [1; 2] -> search r s = Some m ->
  exists t1 t2, group m 1 = Some t1 /\ group m 2 = Some t2.
Proof.
  intros Hd H.
  destruct (ReFacts.search_defined r s m 1 H) as [t1 H1]; [rewrite Hd; simpl; auto|].
  destruct (ReFacts.search_defined r s m 2 H) as [t2 H2]; [rewrite Hd; simpl; auto|].
  eauto.
Qed.


(** C10: for every query the result is a pair of a symbol and an exchange
    that are both present, or the pair (None, None); a symbol never comes
    without an exchange. *)
Theorem parse_symbol_both_or_neither (query : string) :
  (exists symbol exchange,
     parse_symbol_from_query query = (Some symbol, Some exchange))
  \/ parse_symbol_from_query query = (None, None).
Proof.
  unfold parse_symbol_from_query, parse_upper.
  destruct (search pattern1 (Str.upper query)) as [m|] eqn:E1.
  { destruct (both_groups _ _ _ pattern1_defined E1) as (t1 & t2 & H1 & H2).
    left. rewrite H1, H2. eauto. }
  destruct (search pattern2 (Str.upper query)) as [m|] eqn:E2.
  { destruct (both_groups _ _ _ pattern2_defined E2) as (t1 & t2 & H1 & H2).
    left. rewrite H1, H2. eauto. }
  destruct (search pattern3 (Str.upper query)) as [m|] eqn:E3.
  { destruct (both_groups _ _ _ pattern3_defined E3) as (t1 & t2 & H1 & H2).
    left. rewrite H1, H2. eauto. }
  destruct (known_symbol (Str.upper query)); [left; eauto | right; reflexivity].
Qed.

End TradingFacts.

(** ** Workflow plans *)

Module PlanFacts.

Import Automotive Spec.

Lemma builder_on_compound_query (query : string) :
  Str.contains "add part" (Str.lower query) = true ->
  Str.contains "payment link" (Str.lower query) = true ->
  analyze_multi_domain_request query =
    mkPlan "REQ_001_DEFENSIVE" query defensive_steps
      ["validate_1"; "validate_2"; "execute_1"; "execute_2"] [].
Proof.
  intros H1 H2. unfold analyze_multi_domain_request. now rewrite H1, H2.
Qed.

Lemma order_is_step_ids (query : string) :
  execution_order (analyze_multi_domain_request query) =
  step_ids (analyze_multi_domain_request query).
Proof.
  unfold analyze_multi_domain_request.
  destruct (Str.contains "add part" (Str.lower query)
            && Str.contains "payment link" (Str.lower query)); reflexivity.
Qed.

(** C1, as it is stated, fails: for the query of the specification the
    step execute_1 depends on validate_5, which no step of the plan
    carries, and the builder still returns the plan with its execution
    order of four steps. *)
Lemma dangling_plan_is_returned :
  has_dangling_dependency (analyze_multi_domain_request compound_query) = true
  /\ execution_order (analyze_multi_domain_request compound_query) =
       ["validate_1"; "validate_2"; "execute_1"; "execute_2"].
Proof. split; vm_compute; reflexivity. Qed.

(** C1, amended: the builder does not check the dependencies and has no
    failure: for every query it returns a plan whose execution order is
    not empty and lists the identifiers of the declared steps, in the
    order of their declaration. *)
Theorem builder_always_returns_an_order (query : string) :
  execution_order (analyze_multi_domain_request query) =
    step_ids (analyze_multi_domain_request query)
  /\ execution_order (analyze_multi_domain_request query) <> [].
Proof.
  split; [apply order_is_step_ids|].
  unfold analyze_multi_domain_request.
  destruct (Str.contains "add part" (Str.lower query)
            && Str.contains "payment link" (Str.lower query)); discriminate.
Qed.

(** C2 on the code: for every query the execution order is a permutation
    of the step identifiers, but for the query of the specification the
    dependency validate_5 of the step execute_1 has no position in the
    execution order, so that it does not stand before execute_1 and the
    order is no topological sort of the declared dependencies. *)
Theorem execution_order_misses_a_dependency :
  (forall query,
     Permutation (execution_order (analyze_multi_domain_request query))
       (step_ids (analyze_multi_domain_request query)))
  /\ (exists s,
        In s (steps (analyze_multi_domain_request compound_query))
        /\ step_id s = "execute_1"
        /\ dependencies s = ["validate_5"]
        /\ dependencies_earlier (analyze_multi_domain_request compound_query) s
           = false)
  /\ position "validate_5"
       (execution_order (analyze_multi_domain_request compound_query)) = None
  /\ respects_dependencies (analyze_multi_domain_request compound_query) = false.
Proof.
  split; [|split; [|split]].
  - intros query. rewrite order_is_step_ids. apply Permutation_refl.
  - exists (new_step "execute_1" "parts" "add_part_to_order"
              [ ("ro_number", PStr "RO_001"); ("part_number", PStr "PART_001");
                ("quantity", PInt 1) ] [ "validate_5" ]).
    repeat split; vm_compute; auto.
  - vm_compute; reflexivity.
  - vm_compute; reflexivity.
Qed.

(** C3, as it is stated, fails for the query of the specification: the
    plan has two validation steps and then two execution steps, but the
    execution steps do not depend on the validation steps that certify
    their entities; validate_1 certifies the repair order that execute_2
    touches and is no dependency of execute_2, directly or through the
    dependencies of its dependencies. *)
Lemma execution_steps_skip_validations :
  Str.contains "add part" (Str.lower compound_query) = true
  /\ Str.contains "payment link" (Str.lower compound_query) = true
  /\ two_validations_then_two_executions
       (analyze_multi_domain_request compound_query) = true
  /\ execution_depends_on_validations
       (analyze_multi_domain_request compound_query) = false
  /\ (exists v e,
        In v (steps (analyze_multi_domain_request compound_query))
        /\ In e (steps (analyze_multi_domain_request compound_query))
        /\ step_id v = "validate_1" /\ step_id e = "execute_2"
        /\ certifies v e = true
        /\ dependencies e = ["execute_1"]
        /\ ancestors (analyze_multi_domain_request compound_query) 4 (step_id e)
           = ["execute_1"; "validate_5"]).
Proof.
  repeat split; try (vm_compute; reflexivity).
  exists (new_step "validate_1" "repair_orders" "validate_repair_order"
            [ ("ro_number", PStr "RO_001") ] []),
         (new_step "execute_2" "payment" "create_payment_link"
            [ ("ro_number", PStr "RO_001"); ("amount", PFloat (Float.of_Z 100));
              ("customer_email", PStr "abc@gmail.com"); ("currency", PStr "USD") ]
            [ "execute_1" ]).
  repeat split; vm_compute; auto.
Qed.

(** C3, amended: for every query that contains "add part" and "payment
    link", whatever the case of its letters, the builder returns the
    plan of the steps validate_1, validate_2, execute_1, execute_2: two
    validation steps and then two execution steps, where validate_2
    depends on validate_1 and the payment step execute_2 depends on the
    part-addition step execute_1 and on nothing else, and the execution
    order has exactly four elements, the four steps in this order. *)
Theorem compound_plan_shape (query : string) :
  Str.contains "add part" (Str.lower query) = true ->
  Str.contains "payment link" (Str.lower query) = true ->
  let p := analyze_multi_domain_request query in
  step_ids p = ["validate_1"; "validate_2"; "execute_1"; "execute_2"]
  /\ two_validations_then_two_executions p = true
  /\ payment_depends_on_part_addition p = true
  /\ List.map dependencies (filter validation_step (steps p)) = [[]; ["validate_1"]]
  /\ List.map dependencies
       (filter (fun s => String.eqb (action s) "create_payment_link") (steps p))
     = [["execute_1"]]
  /\ execution_order p = step_ids p
  /\ List.length (execution_order p) = 4
  /\ NoDup (execution_order p).
Proof.
  intros H1 H2 p. unfold p. rewrite (builder_on_compound_query query H1 H2).
  repeat split; try reflexivity.
  cbn. repeat constructor; cbn; intuition discriminate.
Qed.

Lemma compound_plan_shape_witness :
  Str.contains "add part" (Str.lower compound_query) = true
  /\ Str.contains "payment link" (Str.lower compound_query) = true
  /\ payment_depends_on_part_addition
       (analyze_multi_domain_request compound_query) = true
  /\ List.length (execution_order (analyze_multi_domain_request compound_query)) = 4.
Proof.
  split; [reflexivity|]. split; [reflexivity|].
  pose proof (compound_plan_shape compound_query eq_refl eq_refl) as H.
  cbv zeta in H. split; apply H.
Defined.

End PlanFacts.

(** ** The envelopes of the mock tools *)

Module ToolFacts.

Import Automotive Spec.

Lemma mul_int_cases (x : spec_float) (n : Z) :
  match Float.of_int n with
  | Returned y => Float.mul_int x n = Returned (SFmul Float.prec Float.emax x y)
  | Raised e => Float.mul_int x n = Raised e
  end.
Proof. unfold Float.mul_int. destruct (Float.of_int n); reflexivity. Qed.

Lemma add_part_envelope (ro_number part_number : string) (quantity : Z)
    (d : Dict) :
  add_part_to_repair_order ro_number part_number quantity = Returned d ->
  dict_get d "success" = Some (PBool true) /\ tool_envelope d = true.
Proof.
  unfold add_part_to_repair_order.
  pose proof (mul_int_cases (Float.lit 4599 100) quantity) as H.
  destruct (Float.of_int quantity); rewrite H; simpl; [|discriminate].
  intros E; inversion E; subst. split; reflexivity.
Qed.

Lemma create_payment_link_envelope (format_float : spec_float -> string)
    (ro_number : string) (amount : spec_float) (email currency : string)
    (d : Dict) :
  create_payment_link format_float ro_number amount email currency = Returned d ->
  tool_envelope d = true.
Proof.
  unfold create_payment_link.
  destruct (Re.re_match email_regex email).
  - destruct (SFleb amount (Float.of_Z 0) || SFltb (Float.of_Z 999999999) amount).
    + intros E; inversion E; subst. reflexivity.
    + destruct (Float.to_int amount); simpl; [|discriminate].
      intros E; inversion E; subst. reflexivity.
  - intros E; inversion E; subst. reflexivity.
Qed.

(** C8, as it is stated, fails: the envelope that
    get_repair_order_details returns for the known repair order RO_001
    has no message, and the envelope that create_payment_link returns for
    a malformed email address has no mcp_server, the identifier of the
    source. *)
Lemma envelopes_are_not_uniform :
  invoke (fun _ => "100.0") (Call_get_repair_order_details "RO_001")
    = Returned (get_repair_order_details "RO_001")
  /\ dict_get (get_repair_order_details "RO_001") "success" = Some (PBool true)
  /\ has_key (get_repair_order_details "RO_001") "message" = false
  /\ uniform_envelope (get_repair_order_details "RO_001") = false
  /\ exists d,
       invoke (fun _ => "100.0")
         (Call_create_payment_link "RO_001" (Float.of_Z 100) "abc.gmail.com" "INR")
         = Returned d
       /\ dict_get d "success" = Some (PBool false)
       /\ has_key d "mcp_server" = false
       /\ uniform_envelope d = false.
Proof.
  repeat split; try (vm_compute; reflexivity).
  eexists. repeat split; vm_compute; reflexivity.
Qed.

(** C8, amended: every envelope that an operation of a domain
    collaborator returns has a success flag and the name of the tool; an
    envelope with success=True has a result, a timestamp and mcp_server
    and no error; an envelope with success=False has an error and a
    message and no result. *)
Theorem tool_envelopes_share_a_shape (format_float : spec_float -> string)
    (c : ToolCall) (d : Dict) :
  invoke format_float c = Returned d -> tool_envelope d = true.
Proof.
  destruct c as [ro|part|ro part quantity|ro amount email currency]; simpl.
  - intros E; inversion E; subst. unfold get_repair_order_details.
    destruct (String.eqb ro "RO_001"); reflexivity.
  - intros E; inversion E; subst. unfold get_part_by_number.
    destruct (String.eqb part "PART_001"); reflexivity.
  - intros E. now apply add_part_envelope in E.
  - apply create_payment_link_envelope.
Qed.

Lemma tool_envelopes_share_a_shape_witness :
  invoke (fun _ => "100.0") (Call_get_part_by_number "PART_002")
    = Returned (get_part_by_number "PART_002")
  /\ tool_envelope (get_part_by_number "PART_002") = true.
Proof.
  split; [reflexivity|].
  apply (tool_envelopes_share_a_shape (fun _ => "100.0")
           (Call_get_part_by_number "PART_002")).
  reflexivity.
Defined.

(** C9, as it is stated, fails: for the quantity 2^1024 the product
    45.99 * quantity cannot convert the integer to a float, and the call
    raises OverflowError instead of returning an envelope. *)
Lemma add_part_overflows :
  add_part_to_repair_order "RO_001" "PART_001" (2 ^ 1024)
  = Raised (OverflowError "int too large to convert to float").
Proof. vm_compute; reflexivity. Qed.

(** C9, amended: add_part_to_repair_order checks none of its arguments
    and has no branch that returns success=False: for every repair
    order number and part number, known or not, and every quantity that
    converts to a float, it returns an envelope with success=True; for
    the other quantities it raises the OverflowError of the conversion. *)
Theorem add_part_succeeds_unless_overflow (ro_number part_number : string)
    (quantity : Z) :
  match Float.of_int quantity with
  | Returned _ =>
      exists d,
        add_part_to_repair_order ro_number part_number quantity = Returned d
        /\ dict_get d "success" = Some (PBool true)
  | Raised e =>
      add_part_to_repair_order ro_number part_number quantity = Raised e
  end.
Proof.
  unfold add_part_to_repair_order.
  pose proof (mul_int_cases (Float.lit 4599 100) quantity) as H.
  destruct (Float.of_int quantity); rewrite H; simpl; [|reflexivity].
  eexists. split; reflexivity.
Qed.

End ToolFacts.

(** ** The conversation loop *)

Module PlaybookFacts.

Import Playbook Spec.

Lemma outcome_snoc (st : State) (p : list Printed) (x : Printed) :
  printed st = (p ++ [x])%list -> outcome st = Some x.
Proof. intros H. unfold outcome. rewrite H, map_app. simpl. apply last_last. Qed.

Lemma Action_eqb_eq (a b : Action) : Action_eqb a b = true <-> a = b.
Proof. destruct a, b; simpl; split; intros H; congruence. Qed.

Lemma Agent_eqb_eq (a b : Agent) : Agent_eqb a b = true <-> a = b.
Proof. destruct a, b; simpl; split; intros H; congruence. Qed.

Lemma quiet_app (l1 l2 : list Printed) : quiet l1 -> quiet l2 -> quiet (l1 ++ l2).
Proof.
  intros H1 H2 rem H. apply in_app_or in H. destruct H; [eapply H1|eapply H2]; eauto.
Qed.

Lemma quiet_not_announced (st : State) : quiet (printed st) -> ~ announced_complete st.
Proof. intros H [rem Hin]. exact (H rem Hin). Qed.

Lemma quiet_one (x : Printed) :
  (forall remaining, x <> Triage_decision complete remaining) -> quiet [x].
Proof. intros H rem [Hx|[]]. exact (H rem Hx). Qed.

Section LoopFacts.

Variable run : nat -> Agent -> list Item -> RunResult.

Lemma safety_check_spec (st : State) :
  match safety_check st with
  | Break st' =>
      inputs st' = inputs st /\ invoked st' = invoked st /\ agent st' = agent st
      /\ printed st' = (printed st ++ [Too_many_iterations])%list
      /\ 20 < List.length (inputs st)
  | Continue st' => st' = st /\ List.length (inputs st) <= 20
  end.
Proof.
  unfold safety_check. destruct (20 <? List.length (inputs st)) eqn:E.
  - apply Nat.ltb_lt in E. simpl. auto.
  - apply Nat.ltb_ge in E. auto.
Qed.

Lemma body_spec (st : State) :
  let r := run (List.length (invoked st)) (agent st) (inputs st) in
  match body run st with
  | Break st' =>
      pass run st st' /\
      ((exists d l,
          last_agent r = triage_agent /\ final_output r = Decision d
          /\ action d = complete /\ quiet l
          /\ printed st' =
               ((printed st ++ l)
                ++ [Triage_decision complete (remaining_languages d)])
               ++ [Workflow_completed])
       \/ (exists l,
             last_agent r = triage_agent /\ quiet l
             /\ (forall d, final_output r <> Decision d)
             /\ printed st' = ((printed st ++ l) ++ [Unexpected_response_type]))
       \/ (exists l,
             quiet l /\ 20 < List.length (inputs st')
             /\ printed st' = ((printed st ++ l) ++ [Too_many_iterations])))%list
  | Continue st' =>
      pass run st st' /\ List.length (inputs st') <= 20
      /\ exists l, quiet l /\ printed st' = (printed st ++ l)%list
  end.
Proof.
  intros r. unfold body. fold r. cbn [agent inputs invoked printed].
  assert (Q3 : quiet [Agent_running (name (agent st));
                      Final_output (final_output r); Blank]).
  { intros rem [H|[H|[H|[]]]]; discriminate. }
  destruct (Agent_eqb (last_agent r) triage_agent) eqn:Ea.
  - apply Agent_eqb_eq in Ea.
    destruct (final_output r) as [d|t] eqn:Ef.
    + destruct (Action_eqb (action d) complete) eqn:Ec.
      * apply Action_eqb_eq in Ec. split; [repeat split|].
        left. exists d. eexists. rewrite Ec. repeat split; eauto.
      * assert (Hd : action d <> complete).
        { intros H. apply Action_eqb_eq in H. congruence. }
        match goal with |- context [safety_check ?s] =>
          pose proof (safety_check_spec s) as Hs; destruct (safety_check s) as [st'|st']
        end; cbn [agent inputs invoked printed] in Hs.
        -- destruct Hs as [-> Hlen]. cbn [agent inputs invoked printed].
           split; [repeat split|]. split; [assumption|].
           eexists. split; [|rewrite <- app_assoc; reflexivity].
           apply quiet_app; [exact Q3|]. apply quiet_one. intros rem H.
           inversion H; congruence.
        -- destruct Hs as (Hi & Hv & Hg & Hp & Hlen).
           split; [unfold pass; fold r; cbn [agent inputs invoked printed]; rewrite Hi, Hv, Hg; repeat split|].
           right; right. eexists. split; [|split; [rewrite Hi; exact Hlen|]].
           2:{ rewrite Hp. f_equal. rewrite <- app_assoc. reflexivity. }
           apply quiet_app; [exact Q3|]. apply quiet_one. intros rem H.
           inversion H; congruence.
    + split; [repeat split|]. right; left. eexists.
      repeat split; [assumption|exact Q3|discriminate].
  - match goal with |- context [safety_check ?s] =>
      pose proof (safety_check_spec s) as Hs; destruct (safety_check s) as [st'|st']
    end; cbn [agent inputs invoked printed] in Hs.
    + destruct Hs as [-> Hlen]. cbn [agent inputs invoked printed].
      split; [repeat split|]. split; [assumption|].
      eexists. split; [exact Q3|reflexivity].
    + destruct Hs as (Hi & Hv & Hg & Hp & Hlen).
      split; [unfold pass; fold r; cbn [agent inputs invoked printed]; rewrite Hi, Hv, Hg; repeat split|].
      right; right. eexists. split; [exact Q3|]. split; [rewrite Hi; exact Hlen|].
      rewrite Hp. reflexivity.
Qed.

Lemma loop_more_fuel (fuel : nat) :
  forall st st' k, loop run fuel st = Some st' -> loop run (fuel + k) st = Some st'.
Proof.
  induction fuel as [|fuel IH]; intros st st' k; simpl; [discriminate|].
  destruct (body run st); [apply IH | trivial].
Qed.

(** C7: when a run ends at the triage agent with a TriageDecision whose
    action is complete, the pass that made the run is the last of the
    exchange: the loop breaks with the line of completion, and no agent
    is run after the one that was running. *)
Theorem complete_decision_is_terminal (st : State) (d : TriageDecision) :
  last_agent (run (List.length (invoked st)) (agent st) (inputs st)) = triage_agent ->
  final_output (run (List.length (invoked st)) (agent st) (inputs st)) = Decision d ->
  action d = complete ->
  exists st',
    (forall fuel, loop run (S fuel) st = Some st')
    /\ invoked st' = (invoked st ++ [agent st])%list
    /\ agent st' = triage_agent
    /\ outcome st' = Some Workflow_completed.
Proof.
  intros Ha Hf Hc.
  pose proof (body_spec st) as H. cbv zeta in H.
  destruct (body run st) as [st'|st'] eqn:Eb.
  - exfalso. revert Eb. unfold body. cbn [agent inputs invoked printed].
    rewrite Ha, Hf, Hc. simpl. discriminate.
  - exists st'. split; [intros fuel; simpl; now rewrite Eb|].
    destruct H as [(Hi & Hv & Hg) H]. split; [exact Hv|]. split; [congruence|].
    destruct H as [(d' & l & _ & _ & _ & _ & Hp)|[(l & _ & _ & Hn & _)|(l & _ & _ & Hp)]].
    + eapply outcome_snoc; exact Hp.
    + exfalso. exact (Hn d Hf).
    + exfalso. revert Eb Hp. unfold body. cbn [agent inputs invoked printed].
      rewrite Ha, Hf, Hc. simpl. intros E; inversion E; subst; clear E.
      cbn [printed]. intros Hp. apply (f_equal (fun l => List.last l Blank)) in Hp.
      rewrite !last_last in Hp. discriminate.
Qed.

Hypothesis run_adds_items : forall n a i, new_items (run n a i) <> [].

Lemma pass_grows (st st' : State) :
  pass run st st' ->
  List.length (inputs st) < List.length (inputs st')
  /\ List.length (invoked st') = S (List.length (invoked st)).
Proof.
  intros (Hi & Hv & _). rewrite Hi, Hv, !length_app. simpl.
  pose proof (run_adds_items (List.length (invoked st)) (agent st) (inputs st)) as H.
  destruct (new_items _); [congruence|]. simpl. lia.
Qed.

Lemma loop_bounded (fuel : nat) :
  forall st,
    21 <= List.length (inputs st) + fuel ->
    List.length (inputs st) <= 20 ->
    quiet (printed st) ->
    exists st',
      loop run fuel st = Some st'
      /\ List.length (invoked st) < List.length (invoked st')
      /\ List.length (invoked st') <= List.length (invoked st) + fuel
      /\ reported st'
      /\ (never_complete run ->
          outcome st' = Some Too_many_iterations /\ ~ announced_complete st').
Proof.
  induction fuel as [|fuel IH]; intros st Hfuel Hlen Hq; [lia|].
  simpl. pose proof (body_spec st) as H. cbv zeta in H.
  destruct (body run st) as [st'|st'].
  - destruct H as (Hp & Hlen' & l & Hl & Hpr).
    destruct (pass_grows _ _ Hp) as [Hg Hv].
    destruct (IH st') as (st'' & Hloop & Hlt & Hle & Hrep & Hnc);
      [lia | assumption | rewrite Hpr; now apply quiet_app |].
    exists st''. repeat split; try assumption; try lia; apply Hnc; assumption.
  - destruct H as (Hp & H). destruct (pass_grows _ _ Hp) as [Hg Hv].
    exists st'. split; [reflexivity|]. split; [lia|]. split; [lia|].
    destruct H as [(d & l & Ha & Hf & Hc & Hl & Hpr)
                  |[(l & Ha & Hl & Hn & Hpr)|(l & Hl & Hlen' & Hpr)]].
    + split.
      * left. split; [eapply outcome_snoc; exact Hpr|].
        exists (remaining_languages d). rewrite Hpr.
        apply in_or_app; left. apply in_or_app; right. now left.
      * intros Hnever. destruct (Hnever _ _ _ Ha) as (d' & Hf' & Hc').
        congruence.
    + assert (Hq' : ~ announced_complete st').
      { apply quiet_not_announced. rewrite Hpr.
        repeat apply quiet_app; try assumption.
        apply quiet_one; discriminate. }
      split.
      * right; left. split; [eapply outcome_snoc; exact Hpr | exact Hq'].
      * intros Hnever. destruct (Hnever _ _ _ Ha) as (d' & Hf' & _).
        exfalso. exact (Hn d' Hf').
    + assert (Hq' : ~ announced_complete st').
      { apply quiet_not_announced. rewrite Hpr.
        repeat apply quiet_app; try assumption.
        apply quiet_one; discriminate. }
      assert (Ho : outcome st' = Some Too_many_iterations).
      { eapply outcome_snoc; exact Hpr. }
      split; [right; right|]; auto.
Qed.

End LoopFacts.

Lemma complete_decision_is_terminal_witness :
  exists st',
    loop run_completes 1 (start "Translate hello to French") = Some st'
    /\ invoked st' = [triage_agent]
    /\ outcome st' = Some Workflow_completed.
Proof.
  destruct (complete_decision_is_terminal run_completes
              (start "Translate hello to French")
              (mkDecision complete "All done" []) eq_refl eq_refl eq_refl)
    as (st' & Hloop & Hv & _ & Ho).
  exists st'. split; [apply Hloop | split; assumption].
Defined.

End PlaybookFacts.

(** ** The matcher accepts only texts of the pattern *)

Module ReLangFacts.

Import Re ReLang.

Lemma length_append (s1 s2 : string) :
  String.length (s1 ++ s2) = String.length s1 + String.length s2.
Proof. induction s1 as [|c s1 IH]; simpl; [reflexivity | now rewrite IH]. Qed.

Lemma append_assoc (s1 s2 s3 : string) : (s1 ++ s2) ++ s3 = s1 ++ (s2 ++ s3).
Proof. induction s1 as [|c s1 IH]; simpl; [reflexivity | now rewrite IH]. Qed.

Lemma append_empty (s : string) : s ++ "" = s.
Proof. induction s as [|c s IH]; simpl; [reflexivity | now rewrite IH]. Qed.

Lemma substring_prefix (pre rest : string) :
  substring 0 (String.length pre) (pre ++ rest) = pre.
Proof.
  induction pre as [|c pre IH]; simpl.
  - destruct rest; reflexivity.
  - now rewrite IH.
Qed.

Lemma strip_prefix_append (p s s' : string) :
  Str.strip_prefix p s = Some s' -> s = p ++ s'.
Proof.
  revert s. induction p as [|a p IH]; intros s; simpl.
  - intros H; now inversion H.
  - destruct s as [|b s]; [discriminate|].
    destruct (Ascii.eqb a b) eqn:E; [|discriminate].
    apply Ascii.eqb_eq in E. subst. intros H. now rewrite (IH _ H).
Qed.

Lemma strip_prefix_of_append (p s : string) : Str.strip_prefix p (p ++ s) = Some s.
Proof.
  induction p as [|a p IH]; simpl; [reflexivity|]. now rewrite Ascii.eqb_refl.
Qed.

Lemma plus_k_sound {R : Type} (cls : ascii -> bool) (s : string) :
  forall pos (k : nat -> string -> option R) x,
    plus_k cls pos s k = Some x ->
    exists pre rest,
      s = pre ++ rest /\ pre <> "" /\ all cls pre = true
      /\ k (pos + String.length pre) rest = Some x.
Proof.
  induction s as [|c s IH]; intros pos k x; simpl; [discriminate|].
  destruct (cls c) eqn:Ec; [|discriminate].
  destruct (plus_k cls (S pos) s k) eqn:E.
  - intros H; inversion H; subst.
    destruct (IH _ _ _ E) as (pre & rest & -> & Hne & Hall & Hk).
    exists (String c pre), rest. simpl. rewrite Ec, Hall.
    repeat split; [discriminate|].
    now rewrite Nat.add_succ_r.
  - intros H. exists (String c ""), s. simpl. rewrite Ec.
    repeat split; [discriminate|]. now rewrite Nat.add_1_r.
Qed.

Lemma adds_refl (r : regex) (g : groups) : adds r g g.
Proof. exists []. split; [reflexivity|]. intros n t []. Qed.

Lemma exec_sound {R : Type} (r : regex) :
  forall pos s g (k : nat -> string -> groups -> option R) x,
    exec r pos s g k = Some x ->
    exists pre rest g',
      s = pre ++ rest /\ lang r pos pre rest /\ adds r g g'
      /\ k (pos + String.length pre) rest g' = Some x.
Proof.
  induction r as [p|cls|r1 IH1 r2 IH2|r1 IH1 r2 IH2|i r1 IH1| |];
    intros pos s g k x; simpl.
  - destruct (Str.strip_prefix p s) as [s'|] eqn:E; [|discriminate].
    intros H. exists p, s', g.
    repeat split; [now apply strip_prefix_append | apply adds_refl | assumption].
  - intros H. apply plus_k_sound in H.
    destruct H as (pre & rest & -> & Hne & Hall & Hk).
    exists pre, rest, g. repeat split; try assumption. apply adds_refl.
  - destruct (exec r1 pos s g k) eqn:E.
    + intros H; inversion H; subst.
      destruct (IH1 _ _ _ _ _ E) as (pre & rest & g' & -> & Hl & (new & -> & Hn) & Hk).
      exists pre, rest, (new ++ g)%list. repeat split; try assumption; [now left|].
      exists new. split; [reflexivity|]. intros n t Hin. left. now apply Hn.
    + intros H.
      destruct (IH2 _ _ _ _ _ H) as (pre & rest & g' & -> & Hl & (new & -> & Hn) & Hk).
      exists pre, rest, (new ++ g)%list. repeat split; try assumption; [now right|].
      exists new. split; [reflexivity|]. intros n t Hin. right. now apply Hn.
  - intros H.
    destruct (IH1 _ _ _ _ _ H) as (s1 & rest1 & g1 & -> & Hl1 & (new1 & -> & Hn1) & H1).
    destruct (IH2 _ _ _ _ _ H1) as (s2 & rest & g2 & -> & Hl2 & (new2 & -> & Hn2) & H2).
    exists (s1 ++ s2), rest, (new2 ++ new1 ++ g)%list.
    split; [symmetry; apply append_assoc|]. split; [|split].
    + exists s1, s2. repeat split; assumption.
    + exists (new2 ++ new1)%list. split; [now rewrite app_assoc|].
      intros n t Hin. apply in_app_or in Hin.
      destruct Hin; [right; now apply Hn2 | left; now apply Hn1].
    + now rewrite length_append, Nat.add_assoc.
  - intros H.
    destruct (IH1 _ _ _ _ _ H) as (pre & rest & g1 & -> & Hl & (new & -> & Hn) & Hk).
    replace (pos + String.length pre - pos) with (String.length pre) in Hk by lia.
    rewrite substring_prefix in Hk.
    exists pre, rest, ((i, pre) :: new ++ g)%list. repeat split; try assumption.
    exists ((i, pre) :: new). split; [reflexivity|].
    intros n t [Hin|Hin].
    + inversion Hin; subst. left. split; [reflexivity|]. eauto.
    + right. now apply Hn.
  - destruct (Nat.eqb pos 0) eqn:E; [|discriminate]. apply Nat.eqb_eq in E.
    intros H. exists "", s, g. simpl. rewrite Nat.add_0_r.
    repeat split; try assumption. apply adds_refl.
  - intros H. exists "", s, g. simpl. rewrite Nat.add_0_r.
    assert (Hs : (s = "" \/ s = String "010" "") /\ k pos s g = Some x).
    { destruct s as [|c [|c' s']]; try discriminate; [auto|].
      destruct (Ascii.eqb c "010") eqn:E; [|discriminate].
      apply Ascii.eqb_eq in E. subst. auto. }
    destruct Hs as [Hs Hk]. repeat split; try assumption. apply adds_refl.
Qed.

Lemma group_in (m : groups) (n : nat) (t : string) :
  group m n = Some t -> In (n, t) m.
Proof.
  induction m as [|[i s] m IH]; simpl; [discriminate|].
  destruct (Nat.eqb i n) eqn:E.
  - apply Nat.eqb_eq in E. intros H; inversion H; subst. now left.
  - intros H. right. now apply IH.
Qed.

(** What a successful search found: a part of the subject that the
    pattern matches, and groups that the pattern can take. *)
Lemma search_from_sound (r : regex) (s : string) :
  forall pos m,
    search_from r pos s = Some m ->
    (exists skipped pre rest,
       s = skipped ++ pre ++ rest
       /\ lang r (pos + String.length skipped) pre rest)
    /\ forall n t, group m n = Some t -> captured r n t.
Proof.
  assert (Hexec : forall pos s m,
    exec r pos s [] (fun _ _ g => Some g) = Some m ->
    (exists pre rest, s = pre ++ rest /\ lang r pos pre rest)
    /\ forall n t, group m n = Some t -> captured r n t).
  { intros pos s0 m E. apply exec_sound in E.
    destruct E as (pre & rest & g' & -> & Hl & (new & -> & Hn) & Hk).
    inversion Hk; subst. split; [eauto|].
    intros n t Hg. apply group_in in Hg. rewrite app_nil_r in Hg. now apply Hn. }
  induction s as [|c s IH]; intros pos m; simpl.
  - destruct (exec r pos "" [] (fun _ _ g => Some g)) eqn:E; [|discriminate].
    intros H; inversion H; subst.
    destruct (Hexec _ _ _ E) as [(pre & rest & Hs & Hl) Hg]. split; [|exact Hg].
    exists "", pre, rest. simpl. rewrite Nat.add_0_r. auto.
  - destruct (exec r pos (String c s) [] (fun _ _ g => Some g)) eqn:E.
    + intros H; inversion H; subst.
      destruct (Hexec _ _ _ E) as [(pre & rest & Hs & Hl) Hg]. split; [|exact Hg].
      exists "", pre, rest. simpl. rewrite Nat.add_0_r. auto.
    + intros H. destruct (IH _ _ H) as [(skipped & pre & rest & -> & Hl) Hg].
      split; [|exact Hg].
      exists (String c skipped), pre, rest. simpl. rewrite Nat.add_succ_r.
      auto.
Qed.

Lemma re_match_sound (r : regex) (s : string) (m : groups) :
  re_match r s = Some m -> exists pre rest, s = pre ++ rest /\ lang r 0 pre rest.
Proof.
  unfold re_match. intros E. apply exec_sound in E.
  destruct E as (pre & rest & g' & -> & Hl & _ & _). eauto.
Qed.

End ReLangFacts.

(** ** More on the extraction of symbol and exchange *)

Module ParseFacts.

Import Re ReLang TradingAgent TradingSpec ReLangFacts.

Lemma exchange_lang (pos : nat) (t rest : string) :
  lang exchange pos t rest -> In t supported_exchanges.
Proof. simpl. intuition. Qed.

Lemma captured_exchange (n : nat) (t : string) : ~ captured exchange n t.
Proof. simpl. tauto. Qed.

Lemma pattern1_captured (n : nat) (t : string) :
  captured pattern1 n t ->
  (n = 1 /\ In t supported_exchanges) \/ (n = 2 /\ well_formed_symbol t).
Proof.
  simpl. intros [[[<- (pos & rest & H)]|H]|[[]|[[<- (pos & rest & H)]|[]]]].
  - left. split; [reflexivity|]. apply (exchange_lang pos t rest H).
  - tauto.
  - right. split; [reflexivity|exact H].
Qed.

Lemma pattern2_captured (n : nat) (t : string) :
  captured pattern2 n t ->
  (n = 2 /\ In t supported_exchanges) \/ (n = 1 /\ well_formed_symbol t).
Proof.
  simpl. intros H.
  repeat match goal with
  | H : _ \/ _ |- _ => destruct H as [H|H]
  | H : False |- _ => destruct H
  end.
  - destruct H as [<- (pos & rest & H)]. right. split; [reflexivity|exact H].
  - destruct H as [<- (pos & rest & H)]. left. split; [reflexivity|].
    apply (exchange_lang pos t rest H).
Qed.

Lemma pattern3_captured (n : nat) (t : string) :
  captured pattern3 n t ->
  (n = 1 /\ In t supported_exchanges) \/ (n = 2 /\ well_formed_symbol t).
Proof.
  simpl. intros [[[<- (pos & rest & H)]|H]|[[]|[[<- (pos & rest & H)]|[]]]].
  - left. split; [reflexivity|]. apply (exchange_lang pos t rest H).
  - tauto.
  - right. split; [reflexivity|exact H].
Qed.

Lemma known_symbols_well_formed (symbol : string) :
  In symbol known_symbols -> well_formed_symbol symbol.
Proof.
  intros H. unfold known_symbols in H. simpl in H.
  repeat (destruct H as [<-|H]; [split; [discriminate | reflexivity]|]).
  destruct H.
Qed.

(** X1: The result of the extraction is well formed: the exchange is one of
    NSE, BSE, NFO and MCX, and the symbol is not empty and made of upper
    case letters, digits, ampersands and hyphens. *)
Theorem parsed_pair_is_well_formed (query symbol exchange : string) :
  parse_symbol_from_query query = (Some symbol, Some exchange) ->
  In exchange supported_exchanges /\ well_formed_symbol symbol.
Proof.
  unfold parse_symbol_from_query, parse_upper.
  destruct (search pattern1 (Str.upper query)) as [m|] eqn:E1.
  { intros H; inversion H as [[H2 H1]].
    destruct (search_from_sound _ _ _ _ E1) as [_ Hc].
    destruct (pattern1_captured _ _ (Hc _ _ H1)) as [[_ He]|[Hn _]]; [|discriminate].
    destruct (pattern1_captured _ _ (Hc _ _ H2)) as [[Hn _]|[_ Hs]]; [discriminate|].
    auto. }
  destruct (search pattern2 (Str.upper query)) as [m|] eqn:E2.
  { intros H; inversion H as [[H1 H2]].
    destruct (search_from_sound _ _ _ _ E2) as [_ Hc].
    destruct (pattern2_captured _ _ (Hc _ _ H2)) as [[_ He]|[Hn _]]; [|discriminate].
    destruct (pattern2_captured _ _ (Hc _ _ H1)) as [[Hn _]|[_ Hs]]; [discriminate|].
    auto. }
  destruct (search pattern3 (Str.upper query)) as [m|] eqn:E3.
  { intros H; inversion H as [[H2 H1]].
    destruct (search_from_sound _ _ _ _ E3) as [_ Hc].
    destruct (pattern3_captured _ _ (Hc _ _ H1)) as [[_ He]|[Hn _]]; [|discriminate].
    destruct (pattern3_captured _ _ (Hc _ _ H2)) as [[Hn _]|[_ Hs]]; [discriminate|].
    auto. }
  destruct (known_symbol (Str.upper query)) as [s|] eqn:E4; [|discriminate].
  intros H; inversion H; subst. split; [simpl; auto|].
  apply known_symbols_well_formed. unfold known_symbol in E4.
  apply find_some in E4. tauto.
Qed.

Lemma parsed_pair_is_well_formed_witness :
  parse_symbol_from_query "RELIANCE on BSE" = (Some "RELIANCE", Some "BSE")
  /\ In "BSE" supported_exchanges /\ well_formed_symbol "RELIANCE".
Proof.
  split; [reflexivity|].
  apply (parsed_pair_is_well_formed "RELIANCE on BSE" "RELIANCE" "BSE").
  reflexivity.
Defined.

End ParseFacts.

(** ** Instrument keys, letter case and the table of known symbols *)

Module ParseMoreFacts.

Import Re ReLang TradingAgent TradingSpec ReLangFacts.

Lemma upper_char_idem (c : ascii) : Str.upper_char (Str.upper_char c) = Str.upper_char c.
Proof. destruct c as [[] [] [] [] [] [] [] []]; reflexivity. Qed.

Lemma upper_lower_char (c : ascii) : Str.upper_char (Str.lower_char c) = Str.upper_char c.
Proof. destruct c as [[] [] [] [] [] [] [] []]; reflexivity. Qed.

Lemma lower_upper_char (c : ascii) : Str.lower_char (Str.upper_char c) = Str.lower_char c.
Proof. destruct c as [[] [] [] [] [] [] [] []]; reflexivity. Qed.

Lemma upper_symbol_char (c : ascii) : symbol_char c = true -> Str.upper_char c = c.
Proof. destruct c as [[] [] [] [] [] [] [] []]; vm_compute; intros H; first [reflexivity | discriminate H]. Qed.

Lemma map_append f (a b : string) : Str.map f (a ++ b) = Str.map f a ++ Str.map f b.
Proof. induction a as [|c a IH]; simpl; [reflexivity | now rewrite IH]. Qed.

Lemma upper_well_formed (s : string) : all symbol_char s = true -> Str.upper s = s.
Proof.
  induction s as [|c s IH]; simpl; [reflexivity|].
  intros H. apply andb_prop in H. destruct H as [Hc Hs].
  unfold Str.upper in *. simpl. now rewrite (upper_symbol_char c Hc), IH.
Qed.

Lemma plus_k_all {R : Type} (cls : ascii -> bool) (s : string) :
  forall pos rest (k : nat -> string -> option R) x,
    s <> "" -> all cls s = true -> stops cls rest = true ->
    k (pos + String.length s) rest = Some x ->
    plus_k cls pos (s ++ rest) k = Some x.
Proof.
  induction s as [|c s IH]; intros pos rest k x Hne Hall Hstop Hk; [congruence|].
  cbn [all] in Hall. apply andb_prop in Hall. destruct Hall as [Hc Hs].
  cbn [append plus_k]. rewrite Hc.
  cbn [String.length] in Hk. rewrite Nat.add_succ_r in Hk.
  destruct s as [|c' s].
  - cbn [append String.length] in *. rewrite Nat.add_0_r in Hk.
    assert (E : plus_k cls (S pos) rest k = None).
    { destruct rest as [|d rest]; simpl in *; [reflexivity|].
      destruct (cls d); [discriminate|reflexivity]. }
    now rewrite E.
  - rewrite (IH (S pos) rest k x); [reflexivity|discriminate|assumption|assumption|].
    exact Hk.
Qed.

Lemma search_first (r : regex) (s : string) (m : groups) :
  exec r 0 s [] (fun _ _ g => Some g) = Some m -> search r s = Some m.
Proof. unfold search. intros H. destruct s; simpl; now rewrite H. Qed.

Lemma substring_all (s : string) : substring 0 (String.length s) s = s.
Proof. rewrite <- (append_empty s) at 2. apply substring_prefix. Qed.

(** X2: Round trip: the instrument key that [format_instrument_key] builds
    from a supported exchange and a well formed symbol is parsed back to
    the same symbol and exchange. *)
Theorem format_then_parse_roundtrip (symbol exchange : string) :
  In exchange supported_exchanges -> well_formed_symbol symbol ->
  parse_symbol_from_query (format_instrument_key symbol exchange)
  = (Some symbol, Some exchange).
Proof.
  intros He [Hne Hall].
  unfold parse_symbol_from_query, format_instrument_key, Str.upper.
  rewrite !map_append. fold (Str.upper symbol). rewrite (upper_well_formed _ Hall).
  assert (Hp : forall pos (k : nat -> string -> option groups) x,
            k (pos + String.length symbol) "" = Some x ->
            plus_k symbol_char pos symbol k = Some x).
  { intros pos k x Hk. rewrite <- (append_empty symbol) at 1.
    apply plus_k_all; auto. }
  unfold parse_upper.
  simpl in He.
  destruct He as [<-|[<-|[<-|[<-|[]]]]];
    (erewrite search_first; [|simpl; erewrite Hp; reflexivity]);
    simpl; rewrite Nat.sub_0_r, substring_all; reflexivity.
Qed.

(** X3: On ASCII text the extraction ignores the case of the letters of
    the query: the query in upper case and the query in lower case give
    the result of the query itself. *)
Theorem parse_ignores_letter_case (query : string) :
  isascii query = true ->
  parse_symbol_from_query (Str.upper query) = parse_symbol_from_query query
  /\ parse_symbol_from_query (Str.lower query) = parse_symbol_from_query query.
Proof.
  intros _.
  unfold parse_symbol_from_query. split; f_equal; unfold Str.upper, Str.lower.
  - induction query as [|c q IH]; simpl; [reflexivity|].
    now rewrite upper_char_idem, IH.
  - induction query as [|c q IH]; simpl; [reflexivity|].
    now rewrite upper_lower_char, IH.
Qed.

Lemma startswith_spec (s p : string) :
  Str.startswith s p = true <-> exists post, s = p ++ post.
Proof.
  unfold Str.startswith. split.
  - destruct (Str.strip_prefix p s) as [post|] eqn:E; [|discriminate].
    intros _. exists post. now apply strip_prefix_append.
  - intros [post ->]. now rewrite strip_prefix_of_append.
Qed.

Lemma contains_spec (sub s : string) :
  Str.contains sub s = true <-> exists pre post, s = pre ++ sub ++ post.
Proof.
  split.
  - induction s as [|c s IH]; simpl.
    + rewrite orb_false_r. intros H. apply startswith_spec in H.
      destruct H as [post H]. exists "", post. exact H.
    + intros H. apply orb_prop in H. destruct H as [H|H].
      * apply startswith_spec in H. destruct H as [post H]. exists "", post. exact H.
      * destruct (IH H) as (pre & post & ->). exists (String c pre), post. reflexivity.
  - intros (pre & post & ->). induction pre as [|c pre IH]; simpl.
    + assert (H : Str.startswith (sub ++ post) sub = true)
        by (apply startswith_spec; eauto).
      destruct (sub ++ post); simpl; now rewrite H.
    + rewrite IH. apply orb_true_r.
Qed.

Lemma contains_infix (a b c s : string) :
  Str.contains (a ++ b ++ c) s = true -> Str.contains b s = true.
Proof.
  intros H. apply contains_spec in H. destruct H as (pre & post & ->).
  apply contains_spec. exists (pre ++ a), (c ++ post).
  now rewrite !append_assoc.
Qed.

Lemma shadowed_in_table (query_upper : string) :
  known_symbol query_upper <> Some "HDFCBANK"
  /\ known_symbol query_upper <> Some "ULTRACEMCO".
Proof.
  assert (H1 : Str.contains "HDFCBANK" query_upper = true ->
               Str.contains "HDFC" query_upper = true)
    by apply (contains_infix "" "HDFC" "BANK").
  assert (H2 : Str.contains "ULTRACEMCO" query_upper = true ->
               Str.contains "LT" query_upper = true)
    by apply (contains_infix "U" "LT" "RACEMCO").
  unfold known_symbol, known_symbols. cbn [find].
  repeat match goal with
  | |- context [if Str.contains ?a query_upper then _ else _] =>
      destruct (Str.contains a query_upper) eqn:?
  end; split; try discriminate; intros _;
  try (specialize (H1 eq_refl)); try (specialize (H2 eq_refl)); congruence.
Qed.

(** X4: Two entries of the table of known symbols are never the answer of
    the table: a query that none of the three patterns matches is never
    given the symbol HDFCBANK or ULTRACEMCO, because HDFC and LT stand
    earlier in the table and occur in them. *)
Theorem table_never_answers_shadowed_symbols (query : string) :
  search pattern1 (Str.upper query) = None ->
  search pattern2 (Str.upper query) = None ->
  search pattern3 (Str.upper query) = None ->
  fst (parse_symbol_from_query query) <> Some "HDFCBANK"
  /\ fst (parse_symbol_from_query query) <> Some "ULTRACEMCO".
Proof.
  intros E1 E2 E3. unfold parse_symbol_from_query, parse_upper.
  rewrite E1, E2, E3.
  destruct (shadowed_in_table (Str.upper query)) as [H1 H2].
  destruct (known_symbol (Str.upper query)); simpl; split; congruence.
Qed.

Lemma table_never_answers_shadowed_symbols_witness :
  parse_symbol_from_query "price of HDFCBANK" = (Some "HDFC", Some "NSE")
  /\ fst (parse_symbol_from_query "price of HDFCBANK") <> Some "HDFCBANK".
Proof.
  split; [reflexivity|].
  apply (table_never_answers_shadowed_symbols "price of HDFCBANK");
    reflexivity.
Defined.

Lemma parse_ignores_letter_case_witness :
  isascii "Buy Infy on nse" = true
  /\ parse_symbol_from_query "BUY INFY ON NSE" = (Some "INFY", Some "NSE")
  /\ parse_symbol_from_query "buy infy on nse" = (Some "INFY", Some "NSE").
Proof.
  split; [reflexivity|].
  destruct (parse_ignores_letter_case "Buy Infy on nse" eq_refl) as [Hu Hl].
  split; [exact Hu | exact Hl].
Defined.

Lemma format_then_parse_roundtrip_witness :
  In "BSE" supported_exchanges /\ well_formed_symbol "M&M-2"
  /\ parse_symbol_from_query (format_instrument_key "M&M-2" "BSE")
     = (Some "M&M-2", Some "BSE").
Proof.
  assert (He : In "BSE" supported_exchanges) by (simpl; auto).
  assert (Hs : well_formed_symbol "M&M-2") by (split; [discriminate | reflexivity]).
  split; [exact He|]. split; [exact Hs|].
  apply (format_then_parse_roundtrip "M&M-2" "BSE" He Hs).
Defined.

End ParseMoreFacts.

(** ** Quotes in the responses of the server *)

Module QuotesFacts.

Import Quotes.


Lemma first_quote_exists (symbol_upper : string) (items : JObject) :
  quotes_are_objects items ->
  existsb (fun key => Str.contains symbol_upper (Str.upper key))
    (List.map fst items) = true
  <-> exists q, first_quote symbol_upper items = Some q.
Proof.
  induction items as [|[key value] items IH]; intros Hobj; simpl.
  - split; [discriminate | intros [q H]; discriminate].
  - destruct (Str.contains symbol_upper (Str.upper key)) eqn:E; simpl.
    + destruct (Hobj key value) as [info ->]; [now left|].
      split; [eauto | reflexivity].
    + apply IH. intros k v Hin. apply (Hobj k v). now right.
Qed.

(** X5: On a response that parses to an object with the status "success",
    whose "data" are missing or an object of quotes that are objects,
    the two functions agree: the filter accepts the response exactly
    when a quote can be extracted for the symbol. *)
Theorem filter_and_extract_agree (json_loads : string -> option Json)
    (quote_data_string symbol : string) (data quote_data : JObject) :
  json_loads quote_data_string = Some (JDict data) ->
  get data "status" = Some (JStr "success") ->
  get_default data "data" (JDict []) = JDict quote_data ->
  quotes_are_objects quote_data ->
  filter_symbol_data json_loads quote_data_string symbol = true
  <-> exists q, extract_quote_data json_loads quote_data_string symbol = Some q.
Proof.
  intros Hj Hs Hd Hobj. unfold filter_symbol_data, extract_quote_data.
  rewrite Hj, Hs, Hd. simpl. now apply first_quote_exists.
Qed.



Lemma filter_and_extract_agree_witness :
  filter_symbol_data
    (fun _ => Some (JDict [("status", JStr "success");
                           ("data", JDict [("NSE:INFY", JDict [("volume", JInt 7)])])]))
    "response" "infy" = true
  <-> exists q,
        extract_quote_data
          (fun _ => Some (JDict [("status", JStr "success");
                                 ("data", JDict [("NSE:INFY", JDict [("volume", JInt 7)])])]))
          "response" "infy" = Some q.
Proof.
  apply (filter_and_extract_agree _ "response" "infy"
           [("status", JStr "success");
            ("data", JDict [("NSE:INFY", JDict [("volume", JInt 7)])])]
           [("NSE:INFY", JDict [("volume", JInt 7)])]);
    try reflexivity.
  intros key value [H|[]]. inversion H; subst. eauto.
Defined.



End QuotesFacts.

(** ** Authentication *)

Module AuthFacts.

Import Session.

Lemma profile_runs_app (l1 l2 : list Event) :
  profile_runs (l1 ++ l2) = profile_runs l1 + profile_runs l2.
Proof. unfold profile_runs. now rewrite filter_app, length_app. Qed.

Lemma login_runs_app (l1 l2 : list Event) :
  login_runs (l1 ++ l2) = login_runs l1 + login_runs l2.
Proof. unfold login_runs. now rewrite filter_app, length_app. Qed.

Lemma seconds_slept_app (l1 l2 : list Event) :
  seconds_slept (l1 ++ l2) = seconds_slept l1 + seconds_slept l2.
Proof. unfold seconds_slept. now rewrite map_app, list_sum_app. Qed.

Section AuthenticationFacts.

Variable profile_run : nat -> Answer.
Variable login_run : nat -> Answer.

(** One attempt that does not end the loop: its events and the rest. *)
Lemma attempts_cases (left attempt : nat) :
  (clean (profile_run attempt) = true
   /\ exists output,
        attempts profile_run login_run (S left) attempt
        = (true, [Run_profile; Welcome output]))
  \/ (clean (profile_run attempt) = false
      /\ exists events,
           attempts profile_run login_run (S left) attempt
           = (fst (attempts profile_run login_run left (S attempt)),
              (events ++ snd (attempts profile_run login_run left (S attempt)))%list)
           /\ profile_runs events = 1
           /\ login_runs events <= 1
           /\ seconds_slept events <= 5 * login_runs events).
Proof.
  simpl. unfold clean.
  destruct (attempts profile_run login_run left (S attempt)) as [ok later].
  destruct (profile_run attempt) as [|output].
  - right. split; [reflexivity|].
    exists [Run_profile; Print_error (attempt + 1)].
    split; [reflexivity|]. cbv. repeat split; lia.
  - destruct (needs_login output).
    + right. split; [reflexivity|].
      destruct (login_run attempt) as [|login_output];
        [|destruct (asks_to_log_in login_output)].
      * exists [Run_profile; Print_login_required (attempt + 1);
                Run_login; Print_error (attempt + 1)].
        split; [reflexivity|]. cbv. repeat split; lia.
      * exists [Run_profile; Print_login_required (attempt + 1);
                Run_login; Print_complete_in_browser; Sleep 5].
        split; [reflexivity|]. cbv. repeat split; lia.
      * exists [Run_profile; Print_login_required (attempt + 1); Run_login].
        split; [reflexivity|]. cbv. repeat split; lia.
    + left. split; [reflexivity|]. eauto.
Qed.

Lemma attempts_bounds (left : nat) :
  forall attempt,
    let result := attempts profile_run login_run left attempt in
    profile_runs (snd result) <= left
    /\ login_runs (snd result) <= profile_runs (snd result)
    /\ seconds_slept (snd result) <= 5 * login_runs (snd result)
    /\ (fst result = false -> profile_runs (snd result) = left)
    /\ (fst result = true <->
        exists k, attempt <= k < attempt + left /\ clean (profile_run k) = true).
Proof.
  induction left as [|left IH]; intros attempt.
  - simpl. repeat split; try (cbv; lia); try discriminate.
    intros (k & Hk & _). lia.
  - destruct (attempts_cases left attempt) as [[Hc [output ->]]|[Hc (events & -> & Hp & Hl & Hs)]].
    + simpl. repeat split; try (cbv; lia); try discriminate.
      intros _. exists attempt. split; [lia | assumption].
    + specialize (IH (S attempt)). cbv zeta in IH.
      destruct IH as (IH1 & IH2 & IH3 & IH4 & IH5). cbn [fst snd].
      rewrite profile_runs_app, login_runs_app, seconds_slept_app.
      repeat split; try lia.
      * intros H. specialize (IH4 H). lia.
      * intros H. apply IH5 in H. destruct H as (k & Hk & Hck).
        exists k. split; [lia | assumption].
      * intros (k & Hk & Hck). apply IH5.
        exists k. split; [|assumption].
        assert (k <> attempt) by (intros ->; congruence). lia.
Qed.

(** X8: The profile is obtained, and [_get_user_profile] returns [True],
    exactly when one of the three requests of the profile is answered
    without an exception and without the words login, authenticate or
    session, in any case of the letters; what the login tool answers has
    no influence on the result. *)
Theorem profile_obtained_iff_clean_answer :
  fst (_get_user_profile profile_run login_run) = true
  <-> exists k, k < 3 /\ clean (profile_run k) = true.
Proof.
  unfold _get_user_profile, max_attempts.
  destruct (attempts_bounds 3 0) as (_ & _ & _ & _ & H). cbv zeta in H.
  rewrite H. split; intros (k & Hk & Hc); exists k; (split; [lia | assumption]).
Qed.

(** X9: The authentication is bounded: at most three requests of the
    profile, at most one call of the login tool for each of them, and a
    pause of five seconds only after a call of the login tool, so that
    at most 15 seconds are slept; when the authentication fails, the
    profile was requested exactly three times. *)
Theorem authentication_is_bounded :
  let events := snd (_get_user_profile profile_run login_run) in
  profile_runs events <= 3
  /\ login_runs events <= profile_runs events
  /\ seconds_slept events <= 5 * login_runs events
  /\ seconds_slept events <= 15
  /\ (fst (_get_user_profile profile_run login_run) = false ->
      profile_runs events = 3).
Proof.
  unfold _get_user_profile, max_attempts.
  destruct (attempts_bounds 3 0) as (H1 & H2 & H3 & H4 & _). cbv zeta in *.
  repeat split; try assumption. lia.
Qed.

End AuthenticationFacts.

End AuthFacts.

(** ** The analysis of a query and the trading session *)

Module AnalysisFacts.

Import Re ReLang TradingAgent TradingSpec Session.

Lemma parse_cases (query : string) :
  parse_symbol_from_query query = (None, None)
  \/ exists symbol exchange,
       parse_symbol_from_query query = (Some symbol, Some exchange)
       /\ In exchange supported_exchanges /\ well_formed_symbol symbol.
Proof.
  unfold parse_symbol_from_query, parse_upper.
  destruct (search pattern1 (Str.upper query)) as [m|] eqn:E1.
  { right.
    destruct (TradingFacts.both_groups _ _ _ TradingFacts.pattern1_defined E1)
      as (t1 & t2 & H1 & H2).
    destruct (ReLangFacts.search_from_sound _ _ _ _ E1) as [_ Hc].
    destruct (ParseFacts.pattern1_captured _ _ (Hc _ _ H1)) as [[_ He]|[Hn _]];
      [|discriminate].
    destruct (ParseFacts.pattern1_captured _ _ (Hc _ _ H2)) as [[Hn _]|[_ Hs]];
      [discriminate|].
    exists t2, t1. rewrite H1, H2. auto. }
  destruct (search pattern2 (Str.upper query)) as [m|] eqn:E2.
  { right.
    destruct (TradingFacts.both_groups _ _ _ TradingFacts.pattern2_defined E2)
      as (t1 & t2 & H1 & H2).
    destruct (ReLangFacts.search_from_sound _ _ _ _ E2) as [_ Hc].
    destruct (ParseFacts.pattern2_captured _ _ (Hc _ _ H2)) as [[_ He]|[Hn _]];
      [|discriminate].
    destruct (ParseFacts.pattern2_captured _ _ (Hc _ _ H1)) as [[Hn _]|[_ Hs]];
      [discriminate|].
    exists t1, t2. rewrite H1, H2. auto. }
  destruct (search pattern3 (Str.upper query)) as [m|] eqn:E3.
  { right.
    destruct (TradingFacts.both_groups _ _ _ TradingFacts.pattern3_defined E3)
      as (t1 & t2 & H1 & H2).
    destruct (ReLangFacts.search_from_sound _ _ _ _ E3) as [_ Hc].
    destruct (ParseFacts.pattern3_captured _ _ (Hc _ _ H1)) as [[_ He]|[Hn _]];
      [|discriminate].
    destruct (ParseFacts.pattern3_captured _ _ (Hc _ _ H2)) as [[Hn _]|[_ Hs]];
      [discriminate|].
    exists t2, t1. rewrite H1, H2. auto. }
  destruct (known_symbol (Str.upper query)) as [s|] eqn:E4; [right | now left].
  exists s, "NSE". split; [reflexivity|]. split; [simpl; auto|].
  apply ParseFacts.known_symbols_well_formed. unfold known_symbol in E4.
  apply find_some in E4. tauto.
Qed.

Lemma well_formed_truthy (symbol : string) :
  well_formed_symbol symbol -> truthy (Some symbol) = true.
Proof. intros [Hne _]. destruct symbol; [congruence | reflexivity]. Qed.

Lemma supported_truthy (exchange : string) :
  In exchange supported_exchanges -> truthy (Some exchange) = true.
Proof. simpl. intros [<-|[<-|[<-|[<-|[]]]]]; reflexivity. Qed.

Section AnalysisOfQueries.

Variable Quote : Type.
Variable runner : string -> option Quote.
Variable now : string.

(** What the analysis of a query does, by the result of the parsing. *)
Lemma analyze_cases (self : Agent) (user_query : string) :
  (parse_symbol_from_query user_query = (None, None)
   /\ analyze_stock_from_query Quote runner now self user_query
      = ([("error", FText Quote (no_symbol_error))], self, []))
  \/ exists symbol exchange,
       parse_symbol_from_query user_query = (Some symbol, Some exchange)
       /\ In exchange supported_exchanges /\ well_formed_symbol symbol
       /\ ((runner (quote_prompt symbol exchange) = None
            /\ analyze_stock_from_query Quote runner now self user_query
               = ([("error", FText Quote ("Failed to get quote data for " ++ symbol
                                           ++ " on " ++ exchange))],
                  mkAgent (Some symbol) (Some exchange),
                  [Print_analyzing symbol exchange;
                   Run_quote (quote_prompt symbol exchange);
                   Print_quote_error symbol]))
           \/ exists q,
                runner (quote_prompt symbol exchange) = Some q
                /\ analyze_stock_from_query Quote runner now self user_query
                   = ([("symbol", FText Quote symbol); ("exchange", FText Quote exchange);
                       ("quote_result", FQuote Quote q); ("timestamp", FText Quote now)],
                      mkAgent (Some symbol) (Some exchange),
                      [Print_analyzing symbol exchange;
                       Run_quote (quote_prompt symbol exchange)])).
Proof.
  unfold analyze_stock_from_query, get_stock_quote.
  destruct (parse_cases user_query) as [->|(symbol & exchange & -> & He & Hs)].
  - left. split; reflexivity.
  - right. exists symbol, exchange. split; [reflexivity|]. split; [assumption|].
    split; [assumption|].
    rewrite (well_formed_truthy _ Hs), (supported_truthy _ He). cbn [negb].
    destruct (runner (quote_prompt symbol exchange)) as [q|] eqn:Er.
    + right. exists q. split; reflexivity.
    + left. split; reflexivity.
Qed.

(** X10: The analysis of a query either finds no symbol, and then returns
    the error without a run of the agent and leaves the agent as it
    was; or it finds a well formed symbol and a supported exchange, sets
    them as the current ones of the agent even when the quote then
    fails, asks once for the quote of the instrument key of the two, and
    returns them unless that run fails.  The default exchange NSE of the
    method is never needed. *)
Theorem analysis_follows_the_parsing (self : Agent) (user_query : string) :
  let outcome := analyze_stock_from_query Quote runner now self user_query in
  let analysis_result := fst (fst outcome) in
  (parse_symbol_from_query user_query = (None, None)
   /\ has_error Quote analysis_result = true
   /\ snd (fst outcome) = self
   /\ snd outcome = [])
  \/ exists symbol exchange,
       parse_symbol_from_query user_query = (Some symbol, Some exchange)
       /\ In exchange supported_exchanges /\ well_formed_symbol symbol
       /\ snd (fst outcome) = mkAgent (Some symbol) (Some exchange)
       /\ List.filter (fun e => match e with Run_quote _ => true | _ => false end)
            (snd outcome) = [Run_quote (quote_prompt symbol exchange)]
       /\ (has_error Quote analysis_result = true
           <-> runner (quote_prompt symbol exchange) = None)
       /\ (has_error Quote analysis_result = false ->
           text_at Quote analysis_result "symbol" = symbol
           /\ text_at Quote analysis_result "exchange" = exchange).
Proof.
  cbv zeta.
  destruct (analyze_cases self user_query)
    as [[Hp ->]|(symbol & exchange & Hp & He & Hs & [[Hr ->]|(q & Hr & ->)])].
  - left. repeat split; try assumption; reflexivity.
  - right. exists symbol, exchange. cbn [fst snd].
    do 5 (split; [first [assumption | reflexivity]|]). split.
    + split; [intros _; assumption | reflexivity].
    + intros H. cbv in H. discriminate H.
  - right. exists symbol, exchange. cbn [fst snd].
    do 5 (split; [first [assumption | reflexivity]|]). split.
    + split; [intros H; cbv in H; discriminate H | rewrite Hr; discriminate].
    + intros _. split; reflexivity.
Qed.

Variable profile_run : nat -> Answer.
Variable login_run : nat -> Answer.

Lemma attempts_never_stream (left : nat) :
  forall attempt,
    forallb (fun e => match e with Stream _ _ _ => false | _ => true end)
      (snd (attempts profile_run login_run left attempt)) = true.
Proof.
  induction left as [|left IH]; intros attempt; [reflexivity|].
  simpl. specialize (IH (S attempt)).
  destruct (attempts profile_run login_run left (S attempt)) as [ok later].
  destruct (profile_run attempt) as [|output]; [exact IH|].
  destruct (needs_login output); [|reflexivity].
  destruct (login_run attempt) as [|login_output]; [exact IH|].
  destruct (asks_to_log_in login_output); exact IH.
Qed.

Lemma initialize_never_streams (symbol exchange : string) (minutes : nat) :
  ~ In (Stream symbol exchange minutes) (initialize profile_run login_run).
Proof.
  unfold initialize, _authenticate_and_welcome, _get_user_profile.
  pose proof (attempts_never_stream max_attempts 0) as H.
  destruct (attempts profile_run login_run max_attempts 0) as [ok events].
  cbn [snd] in H. rewrite forallb_forall in H.
  assert (He : ~ In (Stream symbol exchange minutes) events).
  { intros Hin. specialize (H _ Hin). discriminate. }
  destruct ok; cbn [negb snd]; intros [Hx|[Hx|[Hx|Hx]]]; try discriminate;
    apply in_app_or in Hx; destruct Hx as [Hx|[Hx|[]]];
    try discriminate; contradiction.
Qed.

(** X11: A session streams quotes, for 30 minutes, exactly when the query is
    not empty, a symbol and an exchange are extracted from it, and the
    first request of the quote does not fail; it then streams that
    symbol on that exchange.  Whether the authentication succeeded plays
    no part. *)
Theorem session_streams_iff_first_quote (self : Agent)
    (user_query : option string) (symbol exchange : string) (minutes : nat) :
  In (Stream symbol exchange minutes)
     (snd (run_trading_session Quote runner now profile_run login_run
             self user_query))
  <-> minutes = 30
      /\ exists query,
           user_query = Some query /\ query <> ""
           /\ parse_symbol_from_query query = (Some symbol, Some exchange)
           /\ runner (quote_prompt symbol exchange) <> None.
Proof.
  unfold run_trading_session.
  pose proof (initialize_never_streams symbol exchange minutes) as Hinit.
  destruct user_query as [[|c query]|]; cbn [truthy negb snd].
  - split.
    + intros H. apply in_app_or in H. destruct H as [H|[H|[]]];
        [contradiction | discriminate].
    + intros (_ & q & Hq & Hne & _). congruence.
  - destruct (analyze_cases self (String c query))
      as [[Hp ->]|(sy & ex & Hp & He & Hs & [[Hr ->]|(q & Hr & ->)])];
      cbn [has_error existsb fst snd String.eqb Ascii.eqb Bool.eqb orb text_at find];
      split.
    + intros H. apply in_app_or in H. destruct H as [H|[H|[H|[]]]];
        [contradiction | discriminate | discriminate].
    + intros (_ & q & Hq & _ & Hpq & _). inversion Hq; subst. congruence.
    + intros H. apply in_app_or in H.
      destruct H as [H|[H|[H|[H|[H|[H|[]]]]]]]; try discriminate; contradiction.
    + intros (_ & q & Hq & _ & Hpq & Hrq). inversion Hq; subst.
      rewrite Hp in Hpq. inversion Hpq; subst. contradiction.
    + intros H. apply in_app_or in H.
      destruct H as [H|[H|[H|[H|[H|[H|[]]]]]]]; try discriminate;
        [contradiction|].
      inversion H; subst. split; [reflexivity|].
      exists (String c query). repeat split; try assumption; try discriminate.
      rewrite Hr. discriminate.
    + intros (-> & q' & Hq & _ & Hpq & _). inversion Hq; subst.
      rewrite Hp in Hpq. inversion Hpq; subst.
      apply in_or_app. right. simpl. auto 10.
  - split.
    + intros H. apply in_app_or in H. destruct H as [H|[H|[]]];
        [contradiction | discriminate].
    + intros (_ & q & Hq & _). discriminate.
Qed.

(** X12: The session of [main]: from the query "Do live analysis of RELIANCE
    stock traded at NSE" the second pattern takes the word before
    "traded at", so that the agent analyses the symbol STOCK on NSE, asks
    for the quote of NSE:STOCK and never streams RELIANCE. *)
Theorem main_session_analyses_stock :
  let session := main Quote runner now profile_run login_run in
  parse_symbol_from_query main_query = (Some "STOCK", Some "NSE")
  /\ current_symbol (fst session) = Some "STOCK"
  /\ current_exchange (fst session) = Some "NSE"
  /\ In (Run_quote (quote_prompt "STOCK" "NSE")) (snd session)
  /\ forall symbol exchange minutes,
       In (Stream symbol exchange minutes) (snd session) -> symbol = "STOCK".
Proof.
  cbv zeta. unfold main, run_trading_session, main_query. cbn [truthy negb].
  assert (Hp : parse_symbol_from_query
                 "Do live analysis of RELIANCE stock traded at NSE"
               = (Some "STOCK", Some "NSE")) by (vm_compute; reflexivity).
  split; [exact Hp|].
  destruct (analyze_cases (mkAgent None None)
              "Do live analysis of RELIANCE stock traded at NSE")
    as [[Hn _]|(sy & ex & Hq & _ & _ & H)]; [congruence|].
  rewrite Hp in Hq. inversion Hq; subst sy ex. clear Hq.
  destruct H as [[Hr ->]|(q & Hr & ->)];
    cbn [has_error existsb fst snd String.eqb Ascii.eqb Bool.eqb orb text_at find
         current_symbol current_exchange].
  - repeat split.
    + apply in_or_app. right. simpl. auto.
    + intros symbol exchange minutes H. apply in_app_or in H.
      destruct H as [H|[H|[H|[H|[H|[H|[]]]]]]]; try discriminate.
      exfalso. exact (initialize_never_streams _ _ _ H).
  - repeat split.
    + apply in_or_app. right. simpl. auto.
    + intros symbol exchange minutes H. apply in_app_or in H.
      destruct H as [H|[H|[H|[H|[H|[H|[]]]]]]]; try discriminate.
      * exfalso. exact (initialize_never_streams _ _ _ H).
      * now inversion H.
Qed.

End AnalysisOfQueries.

Lemma session_streams_iff_first_quote_witness :
  In (Stream "TCS" "BSE" 30)
     (snd (run_trading_session unit (fun _ => Some tt) "2025-01-15T10:30:00"
             (fun _ => Raises) (fun _ => Raises)
             (mkAgent None None) (Some "TCS on BSE"))).
Proof.
  apply (session_streams_iff_first_quote unit (fun _ => Some tt)
           "2025-01-15T10:30:00" (fun _ => Raises) (fun _ => Raises)
           (mkAgent None None) (Some "TCS on BSE") "TCS" "BSE" 30).
  split; [reflexivity|]. exists "TCS on BSE".
  repeat split; try discriminate; reflexivity.
Defined.

End AnalysisFacts.

(** ** The session of the translation agents *)

Module PlaybookMainFacts.

Import Playbook Spec.

Lemma handoffs_back_and_forth (a b : Agent) :
  In b (handoffs a) <-> In a (handoffs b).
Proof. destruct a, b; simpl; intuition discriminate. Qed.

(** X13: The wiring of [create_agents] is bidirectional: an agent can hand
    off to another exactly when the other can hand off to it; no agent
    hands off to itself, every specialist hands off to the triage agent
    only, and the triage agent to every other agent. *)
Theorem handoffs_are_bidirectional (a b : Agent) :
  (In b (handoffs a) <-> In a (handoffs b))
  /\ ~ In a (handoffs a)
  /\ (a <> triage_agent -> handoffs a = [triage_agent])
  /\ (b <> triage_agent -> In b (handoffs triage_agent)).
Proof.
  split; [apply handoffs_back_and_forth|].
  destruct a, b; simpl; repeat split; intros; try congruence; intuition discriminate.
Qed.

End PlaybookMainFacts.


(** ** The conversation loop and its safety check *)

Module HandoffLoopFacts.

Import Playbook Spec.



Section RunsThatCanRaise.

Variable run : nat -> Agent -> list Item -> PlaybookRaising.RunOutcome.

Hypothesis returned_runs_add_items :
  forall n a i result,
    run n a i = PlaybookRaising.Run_returns result -> new_items result <> [].


Lemma break_is_reported (result : RunResult) (st st' : State) :
  quiet (printed st) ->
  body (fun _ _ _ => result) st = Break st' ->
  reported st'.
Proof.
  intros Hq Hb. pose proof (PlaybookFacts.body_spec (fun _ _ _ => result) st) as H.
  cbv zeta in H. rewrite Hb in H. destruct H as (_ & H).
  destruct H as [(d & l & Ha & Hf & Hc & Hl & Hpr)
                |[(l & Ha & Hl & Hn & Hpr)|(l & Hl & Hlen' & Hpr)]].
  - left. split; [eapply PlaybookFacts.outcome_snoc; exact Hpr|].
    exists (remaining_languages d). rewrite Hpr.
    apply in_or_app; left. apply in_or_app; right. now left.
  - right; left. split; [eapply PlaybookFacts.outcome_snoc; exact Hpr|].
    apply PlaybookFacts.quiet_not_announced. rewrite Hpr.
    repeat apply PlaybookFacts.quiet_app; try assumption.
    apply PlaybookFacts.quiet_one; discriminate.
  - right; right. split; [eapply PlaybookFacts.outcome_snoc; exact Hpr|].
    split; [|exact Hlen'].
    apply PlaybookFacts.quiet_not_announced. rewrite Hpr.
    repeat apply PlaybookFacts.quiet_app; try assumption.
    apply PlaybookFacts.quiet_one; discriminate.
Qed.

Lemma raising_loop_bounded (fuel : nat) :
  forall st,
    21 <= List.length (inputs st) + fuel ->
    List.length (inputs st) <= 20 ->
    quiet (printed st) ->
    exists e,
      PlaybookRaising.loop run fuel st = Some e
      /\ List.length (invoked st) < List.length (invoked (PlaybookRaising.state_of e))
      /\ List.length (invoked (PlaybookRaising.state_of e))
         <= List.length (invoked st) + fuel
      /\ ended e.
Proof.
  induction fuel as [|fuel IH]; intros st Hfuel Hlen Hq; [lia|].
  simpl. unfold PlaybookRaising.body.
  destruct (run (List.length (invoked st)) (agent st) (inputs st))
    as [result|exception] eqn:Er.
  - pose proof (PlaybookFacts.body_spec (fun _ _ _ => result) st) as H.
    cbv zeta in H.
    pose proof (returned_runs_add_items _ _ _ _ Er) as Hnew.
    destruct (body (fun _ _ _ => result) st) as [s1|s1] eqn:Eb.
    + destruct H as ((Hi & Hv & _) & Hlen1 & l & Hl & Hpr).
      assert (Hgrow : List.length (inputs st) < List.length (inputs s1)).
      { rewrite Hi, length_app. destruct (new_items result); [congruence|].
        simpl. lia. }
      assert (Hinv : List.length (invoked s1) = S (List.length (invoked st))).
      { rewrite Hv, length_app. simpl. lia. }
      destruct (IH s1) as (e & Hloop & Hlt & Hle & He);
        [lia | assumption | rewrite Hpr; now apply PlaybookFacts.quiet_app |].
      exists e. repeat split; try assumption; lia.
    + destruct H as ((Hi & Hv & _) & _).
      exists (PlaybookRaising.Loop_left s1). cbn [PlaybookRaising.state_of ended].
      rewrite Hv, length_app. simpl.
      repeat split; try lia. eapply break_is_reported; eassumption.
  - eexists. split; [reflexivity|].
    cbn [PlaybookRaising.state_of ended invoked agent].
    rewrite length_app. simpl. repeat split; try lia.
    + eapply PlaybookFacts.outcome_snoc. reflexivity.
    + apply PlaybookFacts.quiet_not_announced. cbn [printed].
      apply PlaybookFacts.quiet_app; [assumption|].
      apply PlaybookFacts.quiet_one; discriminate.
Qed.


End RunsThatCanRaise.


End HandoffLoopFacts.

(** ** How many runs an exchange can hold *)

Module LoopBoundFacts.

Import Playbook Spec.

Section ItemsPerRun.

Variable run : nat -> Agent -> list Item -> PlaybookRaising.RunOutcome.
Variable k : nat.

Hypothesis returned_runs_add_k_items :
  forall n a i result,
    run n a i = PlaybookRaising.Run_returns result ->
    k <= List.length (new_items result).

Lemma raising_loop_accumulates (fuel : nat) :
  forall st e,
    PlaybookRaising.loop run fuel st = Some e ->
    List.length (inputs st) <= 20 ->
    exists passes items,
      1 <= passes
      /\ List.length (invoked (PlaybookRaising.state_of e))
         = List.length (invoked st) + passes
      /\ List.length (inputs st) + k * (passes - 1) <= 20
      /\ List.length (inputs st) + k * (passes - 1)
         <= List.length (inputs (PlaybookRaising.state_of e))
      /\ (PlaybookMain.raised e = false ->
          List.length (inputs st) + k * passes
          <= List.length (inputs (PlaybookRaising.state_of e)))
      /\ inputs (PlaybookRaising.state_of e) = (inputs st ++ items)%list.
Proof.
  induction fuel as [|fuel IH]; intros st e; simpl; [discriminate|].
  unfold PlaybookRaising.body.
  destruct (run (List.length (invoked st)) (agent st) (inputs st))
    as [result|exception] eqn:Er.
  - pose proof (PlaybookFacts.body_spec (fun _ _ _ => result) st) as Hb.
    cbv zeta in Hb.
    pose proof (returned_runs_add_k_items _ _ _ _ Er) as Hk.
    destruct (body (fun _ _ _ => result) st) as [s1|s1].
    + destruct Hb as ((Hi & Hv & _) & Hlen1 & _).
      intros Hloop Hlen.
      destruct (IH _ _ Hloop Hlen1) as (passes & items & H1 & H2 & H3 & H4 & H5 & H6).
      assert (Hg : List.length (inputs s1)
                   = List.length (inputs st) + List.length (new_items result))
        by (rewrite Hi, length_app; reflexivity).
      assert (Hn : List.length (invoked s1) = S (List.length (invoked st)))
        by (rewrite Hv, length_app; simpl; lia).
      destruct passes as [|p]; [lia|].
      replace (S p - 1) with p in H3, H4 by lia.
      exists (S (S p)), (new_items result ++ items)%list.
      replace (S (S p) - 1) with (S p) by lia.
      rewrite !Nat.mul_succ_r in *.
      repeat split; try lia.
      * intros Hr. specialize (H5 Hr). lia.
      * now rewrite H6, Hi, app_assoc.
    + destruct Hb as ((Hi & Hv & _) & _).
      intros Hloop Hlen. inversion Hloop; subst.
      cbn [PlaybookRaising.state_of PlaybookMain.raised].
      exists 1, (new_items result). rewrite Hi, Hv, !length_app. simpl.
      repeat split; try lia.
  - intros Hloop Hlen. inversion Hloop; subst.
    cbn [PlaybookRaising.state_of PlaybookMain.raised inputs invoked].
    exists 1, []. rewrite length_app, app_nil_r. simpl.
    repeat split; try lia; try discriminate.
Qed.

(** X14: The inputs of an exchange only grow: they always start with the
    message of the user, and when every run that returns adds at least
    [k] items, an exchange that was left through a [break] holds [k]
    more items for each of its runs; the safety check then allows at
    most 19/k runs after the first, for instance 7 runs in all when
    each run adds three items. *)
Theorem exchange_accumulates_items (fuel : nat) (msg : string)
    (e : PlaybookRaising.Exit) :
  PlaybookRaising.exchange run fuel msg = Some e ->
  (exists items,
     inputs (PlaybookRaising.state_of e)
     = ([("content", PStr msg); ("role", PStr "user")] :: items)%list)
  /\ k * (List.length (invoked (PlaybookRaising.state_of e)) - 1) <= 19
  /\ (PlaybookMain.raised e = false ->
      1 + k * List.length (invoked (PlaybookRaising.state_of e))
      <= List.length (inputs (PlaybookRaising.state_of e))).
Proof.
  unfold PlaybookRaising.exchange. intros Hloop.
  destruct (raising_loop_accumulates _ _ _ Hloop)
    as (passes & items & H1 & H2 & H3 & H4 & H5 & H6); [simpl; lia|].
  simpl in H2, H3, H4, H5, H6. rewrite H2.
  split; [exists items; exact H6|]. split; [lia|].
  intros Hr. specialize (H5 Hr). lia.
Qed.

End ItemsPerRun.

Lemma exchange_accumulates_items_witness :
  (forall n a i result,
     PlaybookMain.returning run_hands_off n a i = PlaybookRaising.Run_returns result ->
     1 <= List.length (new_items result))
  /\ forall e,
       PlaybookRaising.exchange (PlaybookMain.returning run_hands_off) 20
         "Translate hello to French" = Some e ->
       1 * (List.length (invoked (PlaybookRaising.state_of e)) - 1) <= 19.
Proof.
  assert (H : forall n a i result,
            PlaybookMain.returning run_hands_off n a i
            = PlaybookRaising.Run_returns result ->
            1 <= List.length (new_items result)).
  { intros n a i result E. inversion E; subst. destruct a; simpl; lia. }
  split; [exact H|]. intros e He.
  apply (exchange_accumulates_items (PlaybookMain.returning run_hands_off) 1 H
           20 "Translate hello to French" e He).
Defined.

End LoopBoundFacts.

(** ** The session of the translation agents: its exchanges *)

Module SessionOfExchangesFacts.

Import Playbook PlaybookRaising PlaybookMain Spec.

Section MainFacts.

Variable runs : nat -> nat -> Agent -> list Item -> RunOutcome.

Hypothesis returned_runs_add_items :
  forall n k a i result,
    runs n k a i = Run_returns result -> new_items result <> [].

Lemma exchange_is_left (n : nat) (msg : string) :
  exists e, PlaybookRaising.exchange (runs n) 20 msg = Some e /\ ended e.
Proof.
  destruct (HandoffLoopFacts.raising_loop_bounded (runs n)
              (returned_runs_add_items n) 20 (start msg))
    as (e & Hloop & _ & _ & He);
    [simpl; lia | simpl; lia | intros rem [] |].
  exists e. split; assumption.
Qed.

Lemma conversations_spec (later : list string) :
  forall n msg,
    let session := conversations runs 20 n msg later in
    let exits := fst session in
    1 <= List.length exits <= S (List.length (before_quit later))
    /\ List.map Some exits
       = firstn (List.length exits) (exchanges_of runs 20 n (msg :: before_quit later))
    /\ Forall ended exits
    /\ match snd session with
       | Goodbye =>
           List.length exits = S (List.length (before_quit later))
           /\ existsb quits later = true /\ existsb raised exits = false
       | End_of_input =>
           List.length exits = S (List.length (before_quit later))
           /\ existsb quits later = false /\ existsb raised exits = false
       | Exception_raised exception =>
           exists st, List.last exits (Loop_left st)
                      = Exception_leaves_main exception st
       | Unfinished => False
       end.
Proof.
  induction later as [|user_msg later IH]; intros n msg; cbv zeta.
  - cbn [conversations before_quit exchanges_of].
    destruct (exchange_is_left n msg) as (e & E & He). rewrite E.
    destruct e as [st|ex st]; cbn [fst snd List.length List.map firstn existsb raised orb].
    + repeat split; try lia; try (constructor; [assumption | constructor]).
    + repeat split; try lia; try (constructor; [assumption | constructor]).
      exists st. reflexivity.
  - cbn [conversations before_quit exchanges_of].
    destruct (exchange_is_left n msg) as (e & E & He). rewrite E.
    destruct e as [st|ex st].
    + destruct (quits user_msg) eqn:Eq.
      * cbn [fst snd List.length List.map firstn existsb raised orb exchanges_of].
        rewrite ?E, ?Eq. cbn [orb]. repeat split; try lia; try (constructor; [assumption | constructor]).
      * specialize (IH (S n) user_msg). cbv zeta in IH.
        destruct (conversations runs 20 (S n) user_msg later) as [exits ending].
        cbn [fst snd] in *. destruct IH as (IH1 & IH2 & IH3 & IH4).
        cbn [List.length List.map firstn existsb raised orb exchanges_of].
        rewrite ?E, ?Eq. cbn [orb]. split; [lia|]. split; [now rewrite IH2|].
        split; [constructor; assumption|].
        destruct ending as [| |exception|]; try exact IH4.
        -- destruct IH4 as (H1 & H2 & H3). repeat split; try assumption; lia.
        -- destruct IH4 as (H1 & H2 & H3). repeat split; try assumption; lia.
        -- destruct IH4 as [st' H]. exists st'.
           destruct exits as [|x exits]; [simpl in IH1; lia|]. exact H.
    + cbn [fst snd List.length List.map firstn].
      split; [cbn [List.length]; destruct (quits user_msg); simpl; lia|].
      split; [reflexivity|]. split; [constructor; [assumption | constructor]|].
      exists st. reflexivity.
Qed.

(** X15: A session of [main], when every run that returns adds an item to the
    inputs: every exchange is left, and the session holds one exchange
    for the first line and one for each later line that stands before
    the first of the words quit, exit and bye, in any case of the
    letters, unless a run raises and its exception ends the session.
    Each exchange starts afresh from its line alone.  Without an
    exception the session ends with the goodbye when such a word was
    typed, and with the end of the input otherwise.  The first line
    starts an exchange even when it is such a word. *)
Theorem session_runs_one_exchange_per_line (msg : string) (later : list string) :
  let session := main runs 20 (msg :: later) in
  let exits := fst session in
  1 <= List.length exits <= S (List.length (before_quit later))
  /\ List.map Some exits
     = firstn (List.length exits) (exchanges_of runs 20 0 (msg :: before_quit later))
  /\ Forall ended exits
  /\ match snd session with
     | Goodbye =>
         List.length exits = S (List.length (before_quit later))
         /\ existsb quits later = true /\ existsb raised exits = false
     | End_of_input =>
         List.length exits = S (List.length (before_quit later))
         /\ existsb quits later = false /\ existsb raised exits = false
     | Exception_raised exception =>
         exists st, List.last exits (Loop_left st)
                    = Exception_leaves_main exception st
     | Unfinished => False
     end.
Proof.
  cbv zeta. unfold main.
  pose proof (conversations_spec later 0 msg) as H. cbv zeta in H.
  destruct H as (H1 & H2 & H3 & H4).
  split; [exact H1|]. split; [exact H2|]. split; [exact H3 | exact H4].
Qed.

End MainFacts.

Lemma session_runs_one_exchange_per_line_witness :
  (forall (n k : nat) a i result,
     returning run_completes k a i = Run_returns result -> new_items result <> [])
  /\ List.length (fst (main (fun _ => returning run_completes) 20 ["quit"; "Bye"])) = 1.
Proof.
  assert (H : forall (n k : nat) a i result,
            returning run_completes k a i = Run_returns result ->
            new_items result <> []).
  { intros n k a i result E. inversion E; subst. simpl. discriminate. }
  split; [exact H|].
  pose proof (session_runs_one_exchange_per_line
                (fun _ => returning run_completes) H "quit" ["Bye"]) as S.
  cbv zeta in S. destruct S as (S1 & _).
  replace (before_quit ["Bye"]) with (@nil string) in S1 by reflexivity.
  cbn [List.length] in S1. lia.
Defined.

End SessionOfExchangesFacts.

(** ** Payment links *)

Module PaymentFacts.

Import Automotive ReLang PaymentSpec.

Lemma digits2_pos_bound (m : positive) :
  (Zpos m < 2 ^ Zpos (digits2_pos m))%Z.
Proof.
  induction m as [m IH|m IH|]; cbn [digits2_pos].
  - rewrite Pos2Z.inj_succ, Z.pow_succ_r by lia. lia.
  - rewrite Pos2Z.inj_succ, Z.pow_succ_r by lia. lia.
  - reflexivity.
Qed.

Lemma valid_mantissa_bound (m : positive) (e : Z) :
  bounded Float.prec Float.emax m e = true -> (Zpos m < 9007199254740992)%Z.
Proof.
  unfold bounded, canonical_mantissa, fexp, emin, Float.prec, Float.emax.
  intros H. apply andb_prop in H. destruct H as [H _].
  apply Z.eqb_eq in H.
  assert (Hd : (Zpos (digits2_pos m) <= 53)%Z) by lia.
  pose proof (digits2_pos_bound m) as Hm.
  assert (Hp : (2 ^ Zpos (digits2_pos m) <= 2 ^ 53)%Z)
    by (apply Z.pow_le_mono_r; lia).
  change (2 ^ 53)%Z with 9007199254740992%Z in Hp.
  remember (2 ^ Zpos (digits2_pos m))%Z as q. lia.
Qed.

Lemma limit_float :
  Float.of_Z 999999999 = S754_finite false 8388607991611392 (-23).
Proof. vm_compute. reflexivity. Qed.

Lemma zero_float : Float.of_Z 0 = S754_zero false.
Proof. reflexivity. Qed.

Lemma accepted_amount (amount : spec_float) :
  SFleb amount (Float.of_Z 0) || SFltb (Float.of_Z 999999999) amount = false ->
  amount = S754_nan
  \/ exists m e,
       amount = S754_finite false m e
       /\ ((e < -23)%Z \/ (e = (-23)%Z /\ (Zpos m <= 8388607991611392)%Z)).
Proof.
  rewrite limit_float, zero_float.
  destruct amount as [s|s| |s m e].
  - destruct s; discriminate.
  - destruct s; discriminate.
  - now left.
  - destruct s; [discriminate|].
    unfold SFleb, SFltb, SFcompare. cbn [orb].
    intros H. right. exists m, e. split; [reflexivity|].
    change (Pos.compare_cont Eq 8388607991611392 m)
      with (Pos.compare 8388607991611392 m) in H.
    rewrite Pos2Z.inj_compare in H.
    destruct (Z.compare_spec (-23) e) as [He|He|He]; try discriminate.
    + right. split; [symmetry; exact He|].
      destruct (Z.compare_spec 8388607991611392 (Zpos m)) as [Hm|Hm|Hm];
        try discriminate.
      * rewrite <- Hm. apply Z.le_refl.
      * apply Z.lt_le_incl. exact Hm.
    + left. exact He.
Qed.
Lemma truncated_amount_bound (m : positive) (e : Z) :
  bounded Float.prec Float.emax m e = true ->
  ((e < -23)%Z \/ (e = (-23)%Z /\ (Zpos m <= 8388607991611392)%Z)) ->
  (0 <= Z.shiftl (Zpos m) e <= 999999999)%Z.
Proof.
  intros Hb He. pose proof (valid_mantissa_bound m e Hb) as Hm.
  assert (Hneg : (0 <= - e)%Z) by (destruct He as [He|[-> _]]; lia).
  rewrite <- (Z.opp_involutive e), Z.shiftl_opp_r, Z.shiftr_div_pow2 by exact Hneg.
  assert (Hpow : (0 < 2 ^ (- e))%Z) by (apply Z.pow_pos_nonneg; lia).
  split; [apply Z.div_pos; [apply Pos2Z.is_nonneg | exact Hpow]|].
  destruct He as [He|[-> Hle]].
  - assert (H24 : (2 ^ 24 <= 2 ^ (- e))%Z) by (apply Z.pow_le_mono_r; lia).
    apply Z.le_trans with (Zpos m / 2 ^ 24)%Z.
    + apply Z.div_le_compat_l; [apply Pos2Z.is_nonneg|].
      split; [reflexivity | exact H24].
    + apply Z.lt_le_incl. apply Z.lt_le_trans with (2 ^ 29)%Z.
      * apply Z.div_lt_upper_bound; [reflexivity|]. exact Hm.
      * discriminate.
  - apply Z.div_le_upper_bound; [reflexivity|]. exact Hle.
Qed.

Lemma accepted_email (email : string) (m : Re.groups) :
  Re.re_match email_regex email = Some m -> well_formed_email email.
Proof.
  intros H. apply ReLangFacts.re_match_sound in H.
  destruct H as (pre & rest & -> & H). simpl in H.
  destruct H as (s0 & s1 & -> & [-> _] & H).
  destruct H as (local & s2 & -> & Hlocal & H).
  destruct H as (at_ & s3 & -> & -> & H).
  destruct H as (domain & s4 & -> & Hdomain & H).
  destruct H as (dot & s5 & -> & -> & H).
  destruct H as (tld & s6 & -> & Htld & [-> Htail]).
  exists local, domain, tld, rest.
  repeat split; try tauto.
  simpl. rewrite !ReLangFacts.append_assoc. simpl.
  rewrite ReLangFacts.append_empty, ReLangFacts.append_assoc. reflexivity.
Qed.

Section Payment.

Variable format_float : spec_float -> string.

(** X16: [create_payment_link] raises exactly when the email address is
    accepted and the amount is NaN, which passes both comparisons of the
    amount check and fails in [int(amount)] with a ValueError; for every
    other input it returns an envelope. *)
Theorem payment_link_raises_only_for_nan (ro_number : string) (amount : spec_float)
    (customer_email currency : string) :
  (exists e, create_payment_link format_float ro_number amount customer_email currency
             = Raised e)
  <-> Re.re_match email_regex customer_email <> None /\ amount = S754_nan.
Proof.
  unfold create_payment_link.
  destruct (Re.re_match email_regex customer_email) as [m|].
  - destruct (SFleb amount (Float.of_Z 0) || SFltb (Float.of_Z 999999999) amount) eqn:E.
    + split; [intros [e H]; discriminate|].
      intros [_ ->]. discriminate.
    + destruct (accepted_amount _ E) as [->|(mm & e & -> & _)].
      * split; [intros _; split; [discriminate | reflexivity]|].
        intros _. eexists. reflexivity.
      * split; [intros [x H]; discriminate | intros [_ H]; discriminate].
  - split; [intros [e H]; discriminate | intros [H _]; congruence].
Qed.

(** X17: when [create_payment_link] returns an envelope with success=True
    for an amount that is a float of Python, the email address is well
    formed, the amount truncates to a whole number between 0 and
    999999999, and the payment link is PL_, the repair order number, an
    underscore and that number, at the payment URL of the same link. *)
Theorem payment_link_success_shape (ro_number : string) (amount : spec_float)
    (customer_email currency : string) (d : Dict) :
  create_payment_link format_float ro_number amount customer_email currency
  = Returned d ->
  dict_get d "success" = Some (PBool true) ->
  valid_binary Float.prec Float.emax amount = true ->
  well_formed_email customer_email
  /\ exists units,
       Float.to_int amount = Returned units
       /\ (0 <= units <= 999999999)%Z
       /\ exists result,
            dict_get d "result" = Some (PDict result)
            /\ dict_get result "paymentLinkId"
               = Some (PStr ("PL_" ++ ro_number ++ "_" ++ Str.of_Z units))
            /\ dict_get result "paymentUrl"
               = Some (PStr ("https://payments.cacargroup.com/pay/PL_"
                             ++ ro_number ++ "_" ++ Str.of_Z units))
            /\ dict_get result "customerEmail" = Some (PStr customer_email).
Proof.
  unfold create_payment_link.
  destruct (Re.re_match email_regex customer_email) as [m|] eqn:Em;
    [|intros H; inversion H; subst; discriminate].
  destruct (SFleb amount (Float.of_Z 0) || SFltb (Float.of_Z 999999999) amount) eqn:E;
    [intros H; inversion H; subst; discriminate|].
  destruct (accepted_amount _ E) as [->|(mm & e & -> & He)]; [discriminate|].
  cbn [Float.to_int bind]. intros H _ Hv. inversion H; subst. clear H.
  split; [eapply accepted_email; eassumption|].
  exists (Z.shiftl (Zpos mm) e). split; [reflexivity|].
  split; [apply truncated_amount_bound; assumption|].
  eexists. split; [reflexivity|]. repeat split; reflexivity.
Qed.
End Payment.

Lemma payment_link_success_shape_witness :
  well_formed_email "abc@gmail.com"
  /\ exists units,
       Float.to_int (Float.of_Z 100) = Returned units
       /\ (0 <= units <= 999999999)%Z.
Proof.
  destruct (create_payment_link (fun _ => "100.0") "RO_001" (Float.of_Z 100)
              "abc@gmail.com" "USD") as [d|e] eqn:E; [|discriminate E].
  destruct (payment_link_success_shape (fun _ => "100.0") "RO_001"
              (Float.of_Z 100) "abc@gmail.com" "USD" d E)
    as (He & units & Hu & Hb & _).
  - revert E. vm_compute. intros E. inversion E. reflexivity.
  - reflexivity.
  - split; [exact He|]. exists units. split; assumption.
Defined.

End PaymentFacts.

(** ** More on the plans of the builder *)

Module PlanMoreFacts.

Import Automotive Spec PaymentSpec.

Lemma lower_of_upper (query : string) : Str.lower (Str.upper query) = Str.lower query.
Proof.
  unfold Str.lower, Str.upper. induction query as [|c q IH]; simpl; [reflexivity|].
  now rewrite ParseMoreFacts.lower_upper_char, IH.
Qed.

(** X18: the plans with a fault are the compound ones: the plan of a query
    has a dependency on a step that it does not declare, and an
    execution order that is no topological sort, exactly when the query
    names both "add part" and "payment link"; every other query gets the
    plan of the single step step_1 without dependencies, which carries
    the query and is in order. *)
Theorem only_compound_plans_are_faulty (query : string) :
  (has_dangling_dependency (analyze_multi_domain_request query) = true
   <-> compound query = true)
  /\ (respects_dependencies (analyze_multi_domain_request query) = true
      <-> compound query = false)
  /\ (compound query = false ->
      steps (analyze_multi_domain_request query)
      = [new_step "step_1" "general" "handle_query" [("query", PStr query)] []]
      /\ execution_order (analyze_multi_domain_request query) = ["step_1"]).
Proof.
  unfold analyze_multi_domain_request. fold (compound query).
  destruct (compound query).
  - split; [split; reflexivity|]. split.
    + split; intros E; vm_compute in E; discriminate E.
    + intros E. discriminate E.
  - split; [split; intros E; vm_compute in E; discriminate E|]. split.
    + split; reflexivity.
    + intros _. split; reflexivity.
Qed.

(** X19: every plan that the builder returns carries the query unchanged,
    has distinct step identifiers, has all its steps pending, and has no
    parallel groups: the builder never computes them. *)
Theorem plans_keep_their_shape (query : string) :
  original_query (analyze_multi_domain_request query) = query
  /\ NoDup (step_ids (analyze_multi_domain_request query))
  /\ Forall (fun s => status s = "pending")
       (steps (analyze_multi_domain_request query))
  /\ parallel_groups (analyze_multi_domain_request query) = [].
Proof.
  unfold analyze_multi_domain_request.
  fold (compound query). destruct (compound query); cbn.
  - repeat split; try reflexivity.
    + repeat constructor; cbn; intuition discriminate.
    + repeat constructor.
  - repeat split; try reflexivity.
    + repeat constructor; cbn; intuition discriminate.
    + repeat constructor.
Qed.

(** X20: on ASCII text the builder ignores the case of the letters of the
    query: the query in upper case gets a plan of the same kind, with the
    same request identifier, the same steps apart from the query they
    carry, and the same execution order. *)
Theorem plan_ignores_letter_case (query : string) :
  isascii query = true ->
  compound (Str.upper query) = compound query
  /\ request_id (analyze_multi_domain_request (Str.upper query))
     = request_id (analyze_multi_domain_request query)
  /\ step_ids (analyze_multi_domain_request (Str.upper query))
     = step_ids (analyze_multi_domain_request query)
  /\ execution_order (analyze_multi_domain_request (Str.upper query))
     = execution_order (analyze_multi_domain_request query).
Proof.
  intros _.
  unfold analyze_multi_domain_request, compound. rewrite lower_of_upper.
  destruct (Str.contains "add part" (Str.lower query)
            && Str.contains "payment link" (Str.lower query));
    repeat split; reflexivity.
Qed.

Lemma plan_ignores_letter_case_witness :
  isascii "Add Part and send a Payment Link" = true
  /\ request_id (analyze_multi_domain_request "ADD PART AND SEND A PAYMENT LINK")
     = "REQ_001_DEFENSIVE".
Proof.
  split; [reflexivity|].
  destruct (plan_ignores_letter_case "Add Part and send a Payment Link" eq_refl)
    as (_ & Hr & _).
  exact Hr.
Defined.

End PlanMoreFacts.
